(** * n9-node-routing: the session gate and the error interceptor

    A shallow embedding of the two pieces of decision logic of the
    repository,

    - the [authorizationChecker] installed by [src/start-express-app.ts]
      (lines 80-93), together with the routing-controller option merge
      around it (lines 23-32 and 77-97), and
    - [ErrorHandler.error] of [src/middleware/error-handler.interceptor.ts],

    over a small model of the JavaScript values they inspect. *)

From Stdlib Require Import ZArith NArith List String Ascii Bool Lia.
From Stdlib Require Import Floats.SpecFloat.
From Stdlib Require Import DecimalString.
Import ListNotations.

Set Implicit Arguments.

(* ===================================================================== *)
(** * JavaScript values *)
(* ===================================================================== *)

(** A JavaScript string is a sequence of UTF-16 code units.  Header
    values, property names and error codes are all such strings. *)
Definition JsStr := list N.

(** The code units of an ASCII literal of the source text. *)
Definition lit (s : string) : JsStr :=
  map N_of_ascii (list_ascii_of_string s).

Fixpoint str_eqb (a b : JsStr) : bool :=
  match a, b with
  | [], [] => true
  | x :: a', y :: b' => N.eqb x y && str_eqb a' b'
  | _, _ => false
  end.

(** Values: the primitives, arrays, and objects made of data properties
    with a prototype link ([JsNull] ends the chain).  A Number is an IEEE
    754 binary64 value, in the representation of the standard library's
    [spec_float]; a BigInt is an integer.  Functions, symbols, accessor
    properties and cyclic object graphs are not represented. *)
#[warnings="-register-all"]
Inductive JsValue : Type :=
| JsUndefined
| JsNull
| JsBool (b : bool)
| JsNumber (n : spec_float)
| JsString (s : JsStr)
| JsBigInt (z : Z)
| JsArray (elems : list JsValue)
| JsObject (props : list (JsStr * JsValue)) (proto : JsValue).

(** The binary64 value of an integer literal such as [401] or [500]. *)
Definition num (z : Z) : spec_float := binary_normalize 53 1024 z 0 false.

(** ToBoolean: [undefined], [null], [false], [+0], [-0], [NaN], [0n] and
    the empty string are falsy, everything else is truthy. *)
Definition truthy (v : JsValue) : bool :=
  match v with
  | JsUndefined | JsNull => false
  | JsBool b => b
  | JsNumber (S754_zero _) | JsNumber S754_nan => false
  | JsNumber _ => true
  | JsString [] => false
  | JsString _ => true
  | JsBigInt z => negb (Z.eqb z 0)
  | JsArray _ | JsObject _ _ => true
  end.

(** [a || b] on values already computed. *)
Definition js_or (a b : JsValue) : JsValue := if truthy a then a else b.

(** The outcome of evaluating an expression or running a statement:
    a value, or a thrown value. *)
Inductive Completion (A : Type) : Type :=
| Normal (a : A)
| Throw (e : JsValue).
Arguments Normal {A} a.
Arguments Throw {A} e.

(** ** Properties *)

Fixpoint lookup (V : Type) (k : JsStr) (props : list (JsStr * V)) : option V :=
  match props with
  | [] => None
  | (k', v) :: rest => if str_eqb k k' then Some v else lookup k rest
  end.

(** Assignment [o[k] = v] on the own properties: an existing property
    keeps its place, a new one goes last.  (The order in which the
    platform enumerates own properties is not observed by this program.) *)
Fixpoint set_prop (V : Type) (k : JsStr) (v : V) (props : list (JsStr * V))
  : list (JsStr * V) :=
  match props with
  | [] => [(k, v)]
  | (k', v') :: rest =>
      if str_eqb k k' then (k', v) :: rest else (k', v') :: set_prop k v rest
  end.

(** The built-in prototypes, as far as they hold data properties. *)
Definition Object_prototype : JsValue := JsObject [] JsNull.

Definition Error_prototype : JsValue :=
  JsObject [(lit "name", JsString (lit "Error")); (lit "message", JsString [])]
           Object_prototype.

Definition TypeError_prototype : JsValue :=
  JsObject [(lit "name", JsString (lit "TypeError")); (lit "message", JsString [])]
           Error_prototype.

(** [new TypeError(msg)], without its [stack]. *)
Definition TypeError (msg : JsStr) : JsValue :=
  JsObject [(lit "message", JsString msg)] TypeError_prototype.

(** An object literal [{ k1: v1, ... }]. *)
Definition object_literal (props : list (JsStr * JsValue)) : JsValue :=
  JsObject props Object_prototype.

(** Lookup along the prototype chain of an object. *)
Fixpoint get_chain (o : JsValue) (k : JsStr) : JsValue :=
  match o with
  | JsObject props proto =>
      match lookup k props with
      | Some v => v
      | None => get_chain proto k
      end
  | _ => JsUndefined
  end.

(** The text V8 puts in the TypeError of a property read on [null] or
    [undefined].  The text is the engine's; no statement below depends
    on it. *)
Definition cannot_read (k : JsStr) (v : JsValue) : JsStr :=
  lit "Cannot read property '" ++ k ++ lit "' of "
    ++ match v with JsNull => lit "null" | _ => lit "undefined" end.

(** The member expression [v.k].  Reading a property of [null] or
    [undefined] throws a TypeError.  On the other primitives and on
    arrays the read goes to the built-in prototypes, which hold methods,
    [length] and indices only: none of the names this program reads
    ([userId], [status], [httpCode], [name], [message], [context],
    [errors]) is among them, and [get] is used with these names only. *)
Definition get (v : JsValue) (k : JsStr) : Completion JsValue :=
  match v with
  | JsUndefined | JsNull => Throw (TypeError (cannot_read k v))
  | JsObject _ _ => Normal (get_chain v k)
  | _ => Normal JsUndefined
  end.

(** Strict inequality [v !== 'lit'] against a string. *)
Definition strict_neq_string (v : JsValue) (s : JsStr) : bool :=
  match v with
  | JsString s' => negb (str_eqb s' s)
  | _ => true
  end.

(* ===================================================================== *)
(** * JSON.parse *)
(* ===================================================================== *)

(** The platform's [JSON.parse] (ECMA-404 grammar) on a string, as a
    lexer automaton over the code units followed by a stack automaton
    over the tokens.  Both are single passes over their input. *)
Module JSON.

(** The binary64 value nearest to [(-1)^neg * m * 10^e], ties to even. *)
Definition decimal (neg : bool) (m : N) (e : Z) : spec_float :=
  match m with
  | N0 => S754_zero neg
  | Npos p =>
      if (0 <=? e)%Z
      then binary_normalize 53 1024 (cond_Zopp neg (Zpos p * 10 ^ e)) 0 false
      else SFdiv 53 1024 (S754_finite neg p 0)
                 (S754_finite false (Z.to_pos (10 ^ (- e))) 0)
  end.

Inductive token : Type :=
| TLBrace | TRBrace | TLBracket | TRBracket | TColon | TComma
| TString (s : JsStr)
| TNumber (n : spec_float)
| TTrue | TFalse | TNull.

(** Where the lexer stands inside a number: an optional minus, then a
    single 0 or a digit string that starts with 1-9, then optionally a
    point with one digit at least, then optionally e or E, an optional
    sign and one digit at least. *)
Inductive NumPhase : Type :=
| NMinus | NZero | NInt | NDot | NFrac | NE | NESign | NExp.

Record NumAcc : Type := mkNumAcc {
  neg : bool;        (* leading minus *)
  mant : N;          (* the digits of the integer and fraction parts *)
  fracdigits : N;    (* how many of them are after the point *)
  eneg : bool;       (* sign of the exponent *)
  eabs : N           (* digits of the exponent *)
}.

Inductive LexState : Type :=
| LIdle
| LString (acc : JsStr)                          (* inside a string, reversed *)
| LEscape (acc : JsStr)                          (* after a backslash *)
| LUnicode (acc : JsStr) (todo : nat) (code : N) (* inside \uXXXX *)
| LWord (rest : JsStr) (t : token)               (* inside true/false/null *)
| LNumber (ph : NumPhase) (a : NumAcc).

Definition is_ws (c : N) : bool :=
  (N.eqb c 9 || N.eqb c 10 || N.eqb c 13 || N.eqb c 32)%bool.

Definition digit (c : N) : option N :=
  if (N.leb 48 c && N.leb c 57)%bool then Some (c - 48)%N else None.

Definition hexdigit (c : N) : option N :=
  if (N.leb 48 c && N.leb c 57)%bool then Some (c - 48)%N
  else if (N.leb 65 c && N.leb c 70)%bool then Some (c - 55)%N
  else if (N.leb 97 c && N.leb c 102)%bool then Some (c - 87)%N
  else None.

Definition ch (s : string) : N :=
  match s with
  | String a _ => N_of_ascii a
  | EmptyString => 0%N
  end.

Definition number_value (a : NumAcc) : spec_float :=
  decimal (neg a) (mant a)
          (cond_Zopp (eneg a) (Z.of_N (eabs a)) - Z.of_N (fracdigits a))%Z.

Definition push_digit (a : NumAcc) (d : N) (frac : bool) : NumAcc :=
  mkNumAcc (neg a) (mant a * 10 + d)%N
           (if frac then (fracdigits a + 1)%N else fracdigits a)
           (eneg a) (eabs a).

Definition push_exp (a : NumAcc) (d : N) : NumAcc :=
  mkNumAcc (neg a) (mant a) (fracdigits a) (eneg a) (eabs a * 10 + d)%N.

Definition start_num (negative : bool) : NumAcc :=
  mkNumAcc negative 0 0 false 0.

(** One code unit read between tokens. *)
Definition idle_step (c : N) : option (list token * LexState) :=
  if is_ws c then Some ([], LIdle)
  else if N.eqb c (ch "{") then Some ([TLBrace], LIdle)
  else if N.eqb c (ch "}") then Some ([TRBrace], LIdle)
  else if N.eqb c (ch "[") then Some ([TLBracket], LIdle)
  else if N.eqb c (ch "]") then Some ([TRBracket], LIdle)
  else if N.eqb c (ch ":") then Some ([TColon], LIdle)
  else if N.eqb c (ch ",") then Some ([TComma], LIdle)
  else if N.eqb c 34 then Some ([], LString [])
  else if N.eqb c (ch "-") then Some ([], LNumber NMinus (start_num true))
  else if N.eqb c (ch "0") then Some ([], LNumber NZero (start_num false))
  else if N.eqb c (ch "t") then Some ([], LWord (lit "rue") TTrue)
  else if N.eqb c (ch "f") then Some ([], LWord (lit "alse") TFalse)
  else if N.eqb c (ch "n") then Some ([], LWord (lit "ull") TNull)
  else match digit c with
       | Some d => Some ([], LNumber NInt (push_digit (start_num false) d false))
       | None => None
       end.

(** A number ends at the first code unit that cannot continue it; that
    code unit is then read as one between tokens. *)
Definition end_number (a : NumAcc) (c : N) : option (list token * LexState) :=
  match idle_step c with
  | Some (ts, st) => Some (TNumber (number_value a) :: ts, st)
  | None => None
  end.

Definition is_e (c : N) : bool := (N.eqb c (ch "e") || N.eqb c (ch "E"))%bool.

Definition number_step (ph : NumPhase) (a : NumAcc) (c : N)
  : option (list token * LexState) :=
  match ph with
  | NMinus =>
      match digit c with
      | Some 0%N => Some ([], LNumber NZero a)
      | Some d => Some ([], LNumber NInt (push_digit a d false))
      | None => None
      end
  | NZero =>
      if N.eqb c (ch ".") then Some ([], LNumber NDot a)
      else if is_e c then Some ([], LNumber NE a)
      else end_number a c
  | NInt =>
      match digit c with
      | Some d => Some ([], LNumber NInt (push_digit a d false))
      | None =>
          if N.eqb c (ch ".") then Some ([], LNumber NDot a)
          else if is_e c then Some ([], LNumber NE a)
          else end_number a c
      end
  | NDot =>
      match digit c with
      | Some d => Some ([], LNumber NFrac (push_digit a d true))
      | None => None
      end
  | NFrac =>
      match digit c with
      | Some d => Some ([], LNumber NFrac (push_digit a d true))
      | None => if is_e c then Some ([], LNumber NE a) else end_number a c
      end
  | NE =>
      if N.eqb c (ch "+") then Some ([], LNumber NESign a)
      else if N.eqb c (ch "-")
      then Some ([], LNumber NESign
                     (mkNumAcc (neg a) (mant a) (fracdigits a) true (eabs a)))
      else match digit c with
           | Some d => Some ([], LNumber NExp (push_exp a d))
           | None => None
           end
  | NESign =>
      match digit c with
      | Some d => Some ([], LNumber NExp (push_exp a d))
      | None => None
      end
  | NExp =>
      match digit c with
      | Some d => Some ([], LNumber NExp (push_exp a d))
      | None => end_number a c
      end
  end.

Definition escape_step (acc : JsStr) (c : N) : option (list token * LexState) :=
  if (N.eqb c 34 || N.eqb c 92 || N.eqb c 47)%bool then Some ([], LString (c :: acc))
  else if N.eqb c (ch "b") then Some ([], LString (8%N :: acc))
  else if N.eqb c (ch "f") then Some ([], LString (12%N :: acc))
  else if N.eqb c (ch "n") then Some ([], LString (10%N :: acc))
  else if N.eqb c (ch "r") then Some ([], LString (13%N :: acc))
  else if N.eqb c (ch "t") then Some ([], LString (9%N :: acc))
  else if N.eqb c (ch "u") then Some ([], LUnicode acc 4 0)
  else None.

Definition lex_step (st : LexState) (c : N) : option (list token * LexState) :=
  match st with
  | LIdle => idle_step c
  | LString acc =>
      if N.eqb c 34 then Some ([TString (rev acc)], LIdle)
      else if N.eqb c 92 then Some ([], LEscape acc)
      else if N.ltb c 32 then None
      else Some ([], LString (c :: acc))
  | LEscape acc => escape_step acc c
  | LUnicode acc todo code =>
      match hexdigit c, todo with
      | Some d, S O => Some ([], LString ((code * 16 + d)%N :: acc))
      | Some d, S k => Some ([], LUnicode acc k (code * 16 + d)%N)
      | _, _ => None
      end
  | LWord rest t =>
      match rest with
      | x :: [] => if N.eqb c x then Some ([t], LIdle) else None
      | x :: rest' => if N.eqb c x then Some ([], LWord rest' t) else None
      | [] => None
      end
  | LNumber ph a => number_step ph a c
  end.

(** At the end of the text only a complete number may still be open. *)
Definition lex_end (st : LexState) : option (list token) :=
  match st with
  | LIdle => Some []
  | LNumber (NZero | NInt | NFrac | NExp) a => Some [TNumber (number_value a)]
  | _ => None
  end.

Fixpoint lex (st : LexState) (text : JsStr) : option (list token) :=
  match text with
  | [] => lex_end st
  | c :: rest =>
      match lex_step st c with
      | Some (ts, st') =>
          match lex st' rest with
          | Some ts' => Some (ts ++ ts')
          | None => None
          end
      | None => None
      end
  end.

(** The containers that enclose the value being read. *)
Inductive Context : Type :=
| CArray (elems : list JsValue)                       (* earlier elements, reversed *)
| CObject (props : list (JsStr * JsValue)) (key : JsStr). (* earlier members, pending key *)

Inductive Mode : Type :=
| MValue                                   (* a value must start *)
| MArrayStart                              (* after [ : a value or ] *)
| MObjectStart                             (* after { : a key or } *)
| MObjectKey (props : list (JsStr * JsValue))            (* after a comma: a key *)
| MColon (props : list (JsStr * JsValue)) (key : JsStr)  (* after a key: a colon *)
| MAfter (v : JsValue).                    (* a value is complete *)

Definition scalar (t : token) : option JsValue :=
  match t with
  | TString s => Some (JsString s)
  | TNumber n => Some (JsNumber n)
  | TTrue => Some (JsBool true)
  | TFalse => Some (JsBool false)
  | TNull => Some JsNull
  | _ => None
  end.

Definition value_start (stack : list Context) (t : token)
  : option (Mode * list Context) :=
  match t with
  | TLBracket => Some (MArrayStart, stack)
  | TLBrace => Some (MObjectStart, stack)
  | _ => match scalar t with
         | Some v => Some (MAfter v, stack)
         | None => None
         end
  end.

Definition parse_step (m : Mode) (stack : list Context) (t : token)
  : option (Mode * list Context) :=
  match m with
  | MValue => value_start stack t
  | MArrayStart =>
      match t with
      | TRBracket => Some (MAfter (JsArray []), stack)
      | _ => value_start (CArray [] :: stack) t
      end
  | MObjectStart =>
      match t with
      | TRBrace => Some (MAfter (object_literal []), stack)
      | TString k => Some (MColon [] k, stack)
      | _ => None
      end
  | MObjectKey props =>
      match t with
      | TString k => Some (MColon props k, stack)
      | _ => None
      end
  | MColon props k =>
      match t with
      | TColon => Some (MValue, CObject props k :: stack)
      | _ => None
      end
  | MAfter v =>
      match stack, t with
      | CArray es :: st, TComma => Some (MValue, CArray (v :: es) :: st)
      | CArray es :: st, TRBracket => Some (MAfter (JsArray (rev (v :: es))), st)
      | CObject props k :: st, TComma => Some (MObjectKey (set_prop k v props), st)
      | CObject props k :: st, TRBrace =>
          Some (MAfter (object_literal (set_prop k v props)), st)
      | _, _ => None
      end
  end.

Fixpoint parse_tokens (m : Mode) (stack : list Context) (ts : list token)
  : option JsValue :=
  match ts with
  | [] => match m, stack with
          | MAfter v, [] => Some v
          | _, _ => None
          end
  | t :: rest =>
      match parse_step m stack t with
      | Some (m', stack') => parse_tokens m' stack' rest
      | None => None
      end
  end.

Definition SyntaxError_prototype : JsValue :=
  JsObject [(lit "name", JsString (lit "SyntaxError")); (lit "message", JsString [])]
           Error_prototype.

(** The thrown SyntaxError; its message is the engine's and is left
    empty here, the caller discards the error. *)
Definition SyntaxError : JsValue := JsObject [] SyntaxError_prototype.

(** [JSON.parse(text)]. *)
Definition parse (text : JsStr) : Completion JsValue :=
  match lex LIdle text with
  | Some ts =>
      match parse_tokens MValue [] ts with
      | Some v => Normal v
      | None => Throw SyntaxError
      end
  | None => Throw SyntaxError
  end.

End JSON.

(** A JSON text written with single quotes where JSON has double quotes,
    to spell header values in this file: [dq "{'userId':1}"] is the text
    of [JSON.stringify({ userId: 1 })]. *)
Definition dq (s : string) : JsStr :=
  map (fun c => if N.eqb c 39 then 34%N else c) (lit s).

(* ===================================================================== *)
(** * Statements: state and exceptions *)
(* ===================================================================== *)

(** Expressions evaluate to a [Completion]; [let! x := e in k] evaluates
    [e] and goes on with its value, or propagates what it throws. *)
Definition bindC (A B : Type) (c : Completion A) (k : A -> Completion B)
  : Completion B :=
  match c with
  | Normal a => k a
  | Throw e => Throw e
  end.

Notation "'let!' x ':=' c 'in' k" := (bindC c (fun x => k))
  (at level 10, x name, c at level 100, k at level 200).

(** A statement runs on a mutable state [S] (the request for the gate,
    the log and response of the interceptor) and completes normally or
    throws.  The state reached when it throws is kept. *)
Definition M (S A : Type) : Type := S -> S * Completion A.

Definition ret (S A : Type) (a : A) : M S A := fun s => (s, Normal a).

Definition bind (S A B : Type) (c : M S A) (k : A -> M S B) : M S B :=
  fun s =>
    match c s with
    | (s', Normal a) => k a s'
    | (s', Throw e) => (s', Throw e)
    end.

Definition throw (S A : Type) (e : JsValue) : M S A := fun s => (s, Throw e).
Arguments ret {S A} a.
Arguments throw {S A} e.

Definition lift (S A : Type) (c : Completion A) : M S A := fun s => (s, c).

Definition read (S : Type) : M S S := fun s => (s, Normal s).

Definition modify (S : Type) (f : S -> S) : M S unit := fun s => (f s, Normal tt).
Arguments lift {S A} c.
Arguments read {S}.

(** [try { body } catch (err) { handler }]. *)
Definition try_catch (S A : Type) (body : M S A) (handler : JsValue -> M S A)
  : M S A :=
  fun s =>
    match body s with
    | (s', Normal a) => (s', Normal a)
    | (s', Throw err) => handler err s'
    end.

(** [if (cond) { body }] with no else branch. *)
Definition when (S : Type) (cond : bool) (body : M S unit) : M S unit :=
  if cond then body else ret tt.

Declare Scope js_scope.
Delimit Scope js_scope with js.
Notation "x <- c ;; k" := (bind c (fun x => k))
  (at level 100, c at next level, right associativity) : js_scope.
Notation "c ;; k" := (bind c (fun _ => k))
  (at level 100, right associativity) : js_scope.
Open Scope js_scope.

(* ===================================================================== *)
(** * The session gate ([src/start-express-app.ts], lines 80-93) *)
(* ===================================================================== *)

(** Modelled from the spec: the class [N9Error] comes from the package
    [@neo9/n9-node-utils], whose source is not in the repository.
    [new N9Error(message, status)] is a failure whose message text is
    [message] and whose declared HTTP status is [status] (spec, section 7:
    kind, status and code of each gate failure); like every subclass of
    [Error] that sets no name its [name] is the inherited ["Error"].  Its
    [context] defaults to an empty object. *)
Definition N9Error_prototype : JsValue := JsObject [] Error_prototype.

Definition N9Error (message : JsStr) (status : spec_float) : JsValue :=
  JsObject [(lit "message", JsString message);
            (lit "status", js_or (JsNumber status) (JsNumber (num 500)));
            (lit "context", object_literal [])]
           N9Error_prototype.

(** What the gate touches of [action.request]: the [session] header as
    Node hands it over (a string, or absent) and the [session] slot the
    gate assigns. *)
Record Request : Type := mkRequest {
  headers_session : option JsStr;
  session : JsValue
}.

(** [action.request.headers.session] as a value. *)
Definition header_value (h : option JsStr) : JsValue :=
  match h with
  | Some s => JsString s
  | None => JsUndefined
  end.

(** The argument of [JSON.parse] is converted to a string first. *)
Definition ToString_header (h : option JsStr) : JsStr :=
  match h with
  | Some s => s
  | None => lit "undefined"
  end.

Definition set_session (v : JsValue) (request : Request) : Request :=
  mkRequest (headers_session request) v.

(** Lines 80-93, on [action.request]. *)
Definition authorizationChecker : M Request bool :=
  request <- read ;;
  when (negb (truthy (header_value (headers_session request))))
       (throw (N9Error (lit "session-required") (num 401))) ;;
  try_catch
    (parsed <- lift (JSON.parse (ToString_header (headers_session request))) ;;
     modify (set_session parsed))
    (fun err => throw (N9Error (lit "session-header-is-invalid") (num 401))) ;;
  request <- read ;;
  userId <- lift (get (session request) (lit "userId")) ;;
  when (negb (truthy userId))
       (throw (N9Error (lit "session-header-has-no-userId") (num 401))) ;;
  ret true.

(** A request as it reaches the gate: nothing assigned to [session] yet. *)
Definition incoming (h : option JsStr) : Request := mkRequest h JsUndefined.

(* ===================================================================== *)
(** * The error interceptor ([src/middleware/error-handler.interceptor.ts]) *)
(* ===================================================================== *)

Inductive Severity : Type := Warn | Error.

(** An argument of a logger call, as the call site writes it: a value,
    or the text [JSON.stringify] returned for a value, kept as the value.
    That text only travels to the logger; whether [JSON.stringify]
    returns at all is the environment's [JSON_stringify] below. *)
Inductive LogArg : Type :=
| Val (v : JsValue)
| Stringified (v : JsValue).

(** What the interceptor does to the outside, in the order it does it:
    a call of the logger's [warn] or [error] with its arguments,
    [response.status(status)], [response.json(body)]. *)
Inductive Event : Type :=
| Log (severity : Severity) (args : list LogArg)
| ResponseStatus (status : JsValue)
| ResponseJson (body : JsValue).

Definition Trace : Type := list Event.

(** A logger: its two methods return or throw. *)
Record Logger : Type := mkLogger {
  log_warn : list LogArg -> Completion unit;
  log_error : list LogArg -> Completion unit
}.

(** What the interceptor takes from its surroundings: the global [log]
    (absent when nobody set it) and [console]; the number a string, array
    or object stands for under [<] (StringToNumber, ToPrimitive), which
    on objects may throw; how [JSON.stringify(v)] completes (it returns
    its text, kept as [Stringified v], or throws: a BigInt or a cycle
    inside [v]); and how [response.json(body)] completes on a response
    whose status was set to [status] (it returns once the response is
    written, or throws: a body that cannot be serialised, a status code
    that Node refuses, headers that were sent already). *)
Record Env : Type := mkEnv {
  global_log : option Logger;
  console : Logger;
  ToNumber_platform : JsValue -> Completion spec_float;
  JSON_stringify : JsValue -> Completion unit;
  response_json_result : JsValue -> JsValue -> Completion unit
}.

(** [(global.log || console)]. *)
Definition logger (env : Env) : Logger :=
  match global_log env with
  | Some l => l
  | None => console env
  end.

(** A call [logger.warn(...)] or [logger.error(...)]: the call is made,
    then it returns or throws. *)
Definition call_logger (env : Env) (severity : Severity) (args : list LogArg)
  : M Trace unit :=
  modify (fun t => t ++ [Log severity args]) ;;
  lift (match severity with
        | Warn => log_warn (logger env) args
        | Error => log_error (logger env) args
        end).

(** [response.status(status)]: Express 4 assigns the code to the response
    unchecked and returns; the code is looked at when the response is
    written, in [response.json]. *)
Definition response_status (status : JsValue) : M Trace unit :=
  modify (fun t => t ++ [ResponseStatus status]).

(** [response.json(body)] after [response.status(status)]: the call is
    made, then it returns or throws. *)
Definition response_json (env : Env) (status body : JsValue) : M Trace unit :=
  modify (fun t => t ++ [ResponseJson body]) ;;
  lift (response_json_result env status body).

(** [new RangeError(msg)], without its [stack]. *)
Definition RangeError_prototype : JsValue :=
  JsObject [(lit "name", JsString (lit "RangeError")); (lit "message", JsString [])]
           Error_prototype.

Definition RangeError (msg : JsStr) : JsValue :=
  JsObject [(lit "message", JsString msg)] RangeError_prototype.

(** ToNumber; it throws on a BigInt. *)
Definition ToNumber (env : Env) (v : JsValue) : Completion spec_float :=
  match v with
  | JsUndefined => Normal S754_nan
  | JsNull => Normal (S754_zero false)
  | JsBool b => Normal (if b then num 1 else S754_zero false)
  | JsNumber n => Normal n
  | JsBigInt _ =>
      Throw (TypeError (lit "Cannot convert a BigInt value to a number"))
  | _ => ToNumber_platform env v
  end.

(** [z < n] for a BigInt [z] and a Number [n], by their mathematical
    values. *)
Definition bigint_ltb (z : Z) (n : spec_float) : bool :=
  match n with
  | S754_nan => false
  | S754_infinity s => negb s
  | S754_zero _ => (z <? 0)%Z
  | S754_finite s m e =>
      if (0 <=? e)%Z then (z <? cond_Zopp s (Zpos m) * 2 ^ e)%Z
      else (z * 2 ^ (- e) <? cond_Zopp s (Zpos m))%Z
  end.

(** [v < n] for a Number [n]: false when [v] stands for NaN; a BigInt is
    compared as it is, without ToNumber. *)
Definition js_lt (env : Env) (v : JsValue) (n : spec_float) : Completion bool :=
  match v with
  | JsBigInt z => Normal (bigint_ltb z n)
  | _ => let! x := ToNumber env v in
         Normal (SFltb x n)
  end.

Module ErrorHandler.

(** Line 8: [error.status || error.httpCode || 500]. *)
Definition status (error : JsValue) : Completion JsValue :=
  let! s := get error (lit "status") in
  if truthy s then Normal s
  else let! h := get error (lit "httpCode") in
       Normal (js_or h (JsNumber (num 500))).

(** Lines 9-14. *)
Definition code (error : JsValue) : Completion JsValue :=
  let! name := get error (lit "name") in
  if truthy name && strict_neq_string name (lit "Error") then Normal name
  else let! message := get error (lit "message") in
       if truthy message then Normal message
       else Normal (JsString (lit "unspecified-error")).

(** Line 15: [error.context || error.errors || {}]. *)
Definition context (error : JsValue) : Completion JsValue :=
  let! c := get error (lit "context") in
  if truthy c then Normal c
  else let! e := get error (lit "errors") in
       Normal (js_or e (object_literal [])).

(** The body sent by [response.json]. *)
Definition body (code status context : JsValue) : JsValue :=
  object_literal [(lit "code", code); (lit "status", status);
                  (lit "context", context)].

(** Lines 16-20: the logger call.  The arguments of [warn] are evaluated
    before the call: when [JSON.stringify(error)] throws, [warn] is not
    called. *)
Definition log_failure (env : Env) (error status : JsValue) : M Trace unit :=
  below <- lift (js_lt env status (num 500)) ;;
  if below : bool
  then lift (JSON_stringify env error) ;;
       call_logger env Warn [Val error; Stringified error]
  else call_logger env Error [Val error].

(** Lines 7-28: the method. *)
Definition error (env : Env) (error : JsValue) : M Trace unit :=
  status <- lift (status error) ;;
  code <- lift (code error) ;;
  context <- lift (context error) ;;
  log_failure env error status ;;
  response_status status ;;
  response_json env status (body code status context).

End ErrorHandler.

(* ===================================================================== *)
(** * The routing-controller options ([src/start-express-app.ts], 23-32, 77-97) *)
(* ===================================================================== *)

(** The classes that can stand in an [interceptors] array. *)
Inductive InterceptorClass : Type :=
| SessionLoaderInterceptor
| ErrorHandler
| OtherInterceptor (id : nat).

(** What a field of the options object may hold: plain data, an array of
    classes, or a function from an action to a verdict. *)
Inductive OptionValue : Type :=
| Data (v : JsValue)
| Classes (l : list InterceptorClass)
| Checker (f : M Request bool).

(** The own properties of an options object, in order. *)
Definition Options : Type := list (JsStr * OptionValue).

(** [Object.assign(target, ...sources)]: every own property of every
    source, in order, is assigned on the target; an [undefined] source is
    skipped. *)
Definition assign (target source : Options) : Options :=
  fold_left (fun t kv => set_prop (fst kv) (snd kv) t) source target.

Definition Object_assign (target : Options) (sources : list (option Options))
  : Options :=
  fold_left (fun t s => match s with
                        | Some src => assign t src
                        | None => t
                        end) sources target.

(** Lines 23-32. *)
Definition defaultRoutingControllerOptions (path : JsStr) : Options :=
  [ (lit "defaults",
     Data (object_literal [(lit "nullResultCode", JsNumber (num 404));
                           (lit "undefinedResultCode", JsNumber (num 204))]));
    (lit "defaultErrorHandler", Data (JsBool false));
    (lit "controllers",
     Data (JsArray [JsString (path ++ lit "/**/*.controller.*s")])) ].

(** Lines 77-97: the value of [options.http.routingController] that is
    handed to [useExpressServer], from [options.path] and the
    [options.http.routingController] of the caller. *)
Definition routingController (path : JsStr) (supplied : option Options)
  : Options :=
  let rc := Object_assign [] [Some (defaultRoutingControllerOptions path);
                              supplied] in
  let rc := set_prop (lit "interceptors")
                     (Classes [SessionLoaderInterceptor; ErrorHandler]) rc in
  let rc := set_prop (lit "authorizationChecker")
                     (Checker authorizationChecker) rc in
  set_prop (lit "validation")
           (Data (object_literal [(lit "whitelist", JsBool true);
                                  (lit "forbidNonWhitelisted", JsBool true)]))
           rc.

(** Lines 152-156: [options.http.beforeRoutingControllerLaunchHook], when
    the caller supplies one, is awaited with the options object after line
    97 and before [useExpressServer] reads [options.http.routingController];
    it may leave there what it likes, or throw.  It is taken here as a
    statement on that object. *)
Definition Hook : Type := M Options unit.

(** What [useExpressServer] is handed on line 156, or what the hook threw
    before. *)
Definition configuration_used (path : JsStr) (supplied : option Options)
    (before : option Hook) : Completion Options :=
  match before with
  | None => Normal (routingController path supplied)
  | Some hook =>
      match hook (routingController path supplied) with
      | (rc, Normal _) => Normal rc
      | (_, Throw e) => Throw e
      end
  end.

(* ===================================================================== *)
(** * Conversion to a string *)
(* ===================================================================== *)

(** Three platform operations that are not spelled out here: the text of
    a Number ([Number::toString]), the text an array or an object stands
    for (ToPrimitive, then ToString of what it gives; it goes through the
    [toString] and [valueOf] the value inherits and may throw), and
    [Number.parseFloat] on a string. *)
Record Platform : Type := mkPlatform {
  Number_toString : spec_float -> JsStr;
  Object_toString : JsValue -> Completion JsStr;
  Number_parseFloat : JsStr -> spec_float
}.

(** ToString, as applied by a template literal and by [+] with a string
    operand. *)
Definition ToString (pf : Platform) (v : JsValue) : Completion JsStr :=
  match v with
  | JsUndefined => Normal (lit "undefined")
  | JsNull => Normal (lit "null")
  | JsBool b => Normal (if b then lit "true" else lit "false")
  | JsNumber n => Normal (Number_toString pf n)
  | JsString s => Normal s
  | JsBigInt z => Normal (lit (NilZero.string_of_int (Z.to_int z)))
  | JsArray _ | JsObject _ _ => Object_toString pf v
  end.

(** [new Error(message)], without its [stack]. *)
Definition new_Error (message : JsStr) : JsValue :=
  JsObject [(lit "message", JsString message)] Error_prototype.

(** Strict equality [v === 'lit'] against a string. *)
Definition strict_eq_string (v : JsValue) (s : JsStr) : bool :=
  negb (strict_neq_string v s).

(* ===================================================================== *)
(** * Start-up options ([src/start-express-app.ts], lines 51-76 and 129) *)
(* ===================================================================== *)

(** [process.env.PORT]: a string, or absent. *)
Definition env_value (e : option JsStr) : JsValue := header_value e.

(** Lines 51-52: [options.http.port || process.env.PORT || 5000], where
    the port of the caller is [undefined] when [options.http] or its
    [port] is absent. *)
Definition http_port (supplied : JsValue) (PORT : option JsStr) : JsValue :=
  js_or supplied (js_or (env_value PORT) (JsNumber (num 5000))).

(** What [options.http.logLevel] can be: a value (a morgan format name,
    [false], ...), a format function of the caller, or the format
    function of lines 54-76. *)
Inductive LogLevel : Type :=
| LevelValue (v : JsValue)
| LevelFunction (id : nat)
| DefaultFormat.

Definition is_undefined (l : LogLevel) : bool :=
  match l with
  | LevelValue JsUndefined => true
  | _ => false
  end.

(** Line 54: [typeof logLevel !== 'undefined' ? logLevel : (the default)]. *)
Definition http_logLevel (supplied : LogLevel) : LogLevel :=
  if negb (is_undefined supplied) then supplied else DefaultFormat.

(** Line 129: the test [if (options.http.logLevel)] that guards the
    installation of morgan; a function is truthy. *)
Definition level_truthy (l : LogLevel) : bool :=
  match l with
  | LevelValue v => truthy v
  | LevelFunction _ | DefaultFormat => true
  end.

Definition morgan_installed (supplied : LogLevel) : bool :=
  level_truthy (http_logLevel supplied).

(** The morgan tokens the format function of lines 54-76 reads; each is
    a string or [undefined]. *)
Record Tokens : Type := mkTokens {
  tok_method : option JsStr;
  tok_url : option JsStr;
  tok_status : option JsStr;
  tok_response_time : option JsStr;
  tok_total_response_time : option JsStr;
  tok_content_length : option JsStr
}.

(** What the format function returns: a string, or [JSON.stringify] of an
    object (kept as the object). *)
Inductive Formatted : Type :=
| TextLine (line : JsStr)
| StringifyOf (v : JsValue).

(** [array.join(' ')] on strings and [undefined]s: an [undefined] element
    gives the empty string. *)
Definition join_field (f : option JsStr) : JsStr :=
  match f with
  | Some s => s
  | None => []
  end.

Fixpoint join_space (fields : list (option JsStr)) : JsStr :=
  match fields with
  | [] => []
  | [f] => join_field f
  | f :: rest => join_field f ++ 32%N :: join_space rest
  end.

(** Lines 54-76: the default format function, from
    [global.n9NodeRoutingData], [options.enableRequestId], the
    [x-request-id] header and the tokens. *)
Definition default_format (pf : Platform) (n9NodeRoutingData enableRequestId : JsValue)
    (x_request_id : option JsStr) (tokens : Tokens) : Completion Formatted :=
  let! formatLogInJSON := get n9NodeRoutingData (lit "formatLogInJSON") in
  if truthy formatLogInJSON
  then Normal (StringifyOf (object_literal
         [(lit "method", header_value (tok_method tokens));
          (lit "request-id",
           JsString (if truthy enableRequestId
                     then lit "(" ++ ToString_header x_request_id ++ lit ")"
                     else []));
          (lit "path", header_value (tok_url tokens));
          (lit "status", header_value (tok_status tokens));
          (lit "durationMs",
           JsNumber (Number_parseFloat pf
                       (ToString_header (tok_response_time tokens))));
          (lit "totalDurationMs",
           JsNumber (Number_parseFloat pf
                       (ToString_header (tok_total_response_time tokens))));
          (lit "content-length", header_value (tok_content_length tokens))]))
  else Normal (TextLine (join_space
         [tok_method tokens; tok_url tokens; tok_status tokens;
          tok_response_time tokens; Some (lit "ms - ");
          tok_content_length tokens])).

(* ===================================================================== *)
(** * The log stream of morgan ([src/start-express-app.ts], lines 130-147) *)
(* ===================================================================== *)

(** The second argument of a call [options.log.info(message, meta)]:
    none, a value, or [{ errString: stringify(e) }] for a caught [e]. *)
Inductive InfoMeta : Type :=
| NoMeta
| Meta (v : JsValue)
| ErrString (e : JsValue).

(** The calls of [options.log.info], in order. *)
Definition InfoLog : Type := list (JsStr * InfoMeta).

(** [options.log.info]: it returns or throws. *)
Definition OptionsLog : Type := JsStr -> InfoMeta -> Completion unit.

Definition call_info (log : OptionsLog) (message : JsStr) (meta : InfoMeta)
  : M InfoLog unit :=
  modify (fun t => t ++ [(message, meta)]) ;;
  lift (log message meta).

(** [s.replace(c, '')] for a one-character string [c]: the first
    occurrence goes, the others stay. *)
Fixpoint remove_first (c : N) (s : JsStr) : JsStr :=
  match s with
  | [] => []
  | x :: rest => if N.eqb x c then rest else x :: remove_first c rest
  end.

(** [message && message.replace('\n', '')]. *)
Definition strip_newline (message : JsStr) : JsStr :=
  if truthy (JsString message) then remove_first 10 message else message.

(** Lines 132-145: [write(message)] of the stream handed to morgan. *)
Definition write (pf : Platform) (n9NodeRoutingData : JsValue) (log : OptionsLog)
    (message : JsStr) : M InfoLog unit :=
  formatLogInJSON <- lift (get n9NodeRoutingData (lit "formatLogInJSON")) ;;
  if truthy formatLogInJSON
  then try_catch
         (morganDetails <- lift (JSON.parse message) ;;
          path <- lift (get morganDetails (lit "path")) ;;
          text <- lift (ToString pf path) ;;
          call_info log (lit "api call " ++ text) (Meta morganDetails))
         (fun e => call_info log (strip_newline message) (ErrString e))
  else call_info log (strip_newline message) NoMeta.

(* ===================================================================== *)
(** * Listening ([src/start-express-app.ts], lines 102-120 and 163-177) *)
(* ===================================================================== *)

(** Lines 102-117: [analyzeError(error)], with [options.http.port]. *)
Definition analyzeError (pf : Platform) (port : JsValue) (error : JsValue)
  : Completion JsValue :=
  let! syscall := get error (lit "syscall") in
  if strict_neq_string syscall (lit "listen") then Normal error
  else let! code := get error (lit "code") in
       if strict_eq_string code (lit "EACCES")
       then let! p := ToString pf port in
            Normal (new_Error (lit "Port " ++ p
                                 ++ lit " requires elevated privileges"))
       else if strict_eq_string code (lit "EADDRINUSE")
       then let! p := ToString pf port in
            Normal (new_Error (lit "Port " ++ p ++ lit " is already in use"))
       else Normal error.

(** Lines 118-120: [onListening()]. *)
Definition onListening (pf : Platform) (port : JsValue) (log : OptionsLog)
  : M InfoLog unit :=
  text <- lift (ToString pf port) ;;
  call_info log (lit "Listening on port " ++ text) NoMeta.

(** What the server emits, and the state of the promise of [listen]. *)
Inductive ServerEvent : Type :=
| EvError (error : JsValue)
| EvListening.

Inductive PromiseState : Type :=
| Pending
| Fulfilled
| Rejected (reason : JsValue).

(** [resolve()] and [reject(reason)] act on a pending promise only. *)
Definition settle (p outcome : PromiseState) : PromiseState :=
  match p with
  | Pending => outcome
  | _ => p
  end.

(** Lines 166-172: the two handlers.  A handler that throws leaves the
    promise as it is; what it throws is not caught here. *)
Definition on_event (pf : Platform) (port : JsValue) (log : OptionsLog)
    (ev : ServerEvent) (p : PromiseState) : M InfoLog PromiseState :=
  match ev with
  | EvError error =>
      reason <- lift (analyzeError pf port error) ;;
      ret (settle p (Rejected reason))
  | EvListening =>
      onListening pf port log ;;
      ret (settle p Fulfilled)
  end.

(** The events in order; the run ends with the first handler that
    throws. *)
Fixpoint on_events (pf : Platform) (port : JsValue) (log : OptionsLog)
    (events : list ServerEvent) (p : PromiseState) : M InfoLog PromiseState :=
  match events with
  | [] => ret p
  | ev :: rest =>
      p' <- on_event pf port log ev p ;;
      on_events pf port log rest p'
  end.

(** Lines 163-174: [listen()], given how the call [server.listen(port)]
    completes and the events the server emits afterwards.  What
    [server.listen] throws rejects the promise before a handler is
    registered. *)
Definition listen (pf : Platform) (port : JsValue) (log : OptionsLog)
    (server_listen : Completion unit) (events : list ServerEvent)
  : M InfoLog PromiseState :=
  match server_listen with
  | Throw e => ret (Rejected e)
  | Normal _ => on_events pf port log events Pending
  end.

(* ===================================================================== *)
(** * Vocabulary of the statements *)
(* ===================================================================== *)

(** [null] and [undefined], the two values without properties. *)
Definition nullish (v : JsValue) : bool :=
  match v with
  | JsUndefined | JsNull => true
  | _ => false
  end.

(** The value of [v.k] where the read does not throw. *)
Definition field (v : JsValue) (k : JsStr) : JsValue :=
  match v with
  | JsObject _ _ => get_chain v k
  | _ => JsUndefined
  end.

Definition is_object (v : JsValue) : bool :=
  match v with
  | JsObject _ _ => true
  | _ => false
  end.

(** The severities of the logger calls of a trace, and its response
    events, both in order. *)
Definition logged (t : Trace) : list Severity :=
  flat_map (fun ev => match ev with
                      | Log sev _ => [sev]
                      | _ => []
                      end) t.

Definition responses (t : Trace) : list Event :=
  filter (fun ev => match ev with
                    | Log _ _ => false
                    | _ => true
                    end) t.

(** The three failures of the gate. *)
Definition SessionRequired : JsValue :=
  N9Error (lit "session-required") (num 401).
Definition SessionHeaderInvalid : JsValue :=
  N9Error (lit "session-header-is-invalid") (num 401).
Definition SessionHeaderMissingUserId : JsValue :=
  N9Error (lit "session-header-has-no-userId") (num 401).

(** The case analysis of the gate as section 4.1 of the specification
    words it: an absent header is one thing, a header that does not parse
    another, a parsed value without a truthy [userId] a third. *)
Definition lacks_truthy_userId (v : JsValue) : bool :=
  negb (truthy (field v (lit "userId"))).

Definition specified_gate (h : option JsStr) : Completion bool :=
  match h with
  | None => Throw SessionRequired
  | Some text =>
      match JSON.parse text with
      | Throw _ => Throw SessionHeaderInvalid
      | Normal v =>
          if lacks_truthy_userId v then Throw SessionHeaderMissingUserId
          else Normal true
      end
  end.

(** The Normalized Error of section 3 of the specification, derived
    from a failure in the specification's words. *)
Record NormalizedError : Type := mkNormalizedError {
  ne_code : JsValue;
  ne_status : JsValue;
  ne_context : JsValue
}.

(** The declared HTTP status: the [status] field, or the [httpCode]
    field; a field that is absent or falsy declares nothing. *)
Definition declared_status (failure : JsValue) : option JsValue :=
  if truthy (field failure (lit "status"))
  then Some (field failure (lit "status"))
  else if truthy (field failure (lit "httpCode"))
       then Some (field failure (lit "httpCode"))
       else None.

(** The generic name is the string ["Error"], the name every plain
    [Error] inherits. *)
Definition generic_name (n : JsValue) : bool :=
  match n with
  | JsString s => str_eqb s (lit "Error")
  | _ => false
  end.

(** The declared name, when there is one and it is not the generic one. *)
Definition specific_name (failure : JsValue) : option JsValue :=
  let n := field failure (lit "name") in
  if truthy n && negb (generic_name n) then Some n else None.

Definition message_text (failure : JsValue) : option JsValue :=
  if truthy (field failure (lit "message"))
  then Some (field failure (lit "message"))
  else None.

(** The declared structured detail: [context], or [errors]. *)
Definition declared_detail (failure : JsValue) : option JsValue :=
  if truthy (field failure (lit "context"))
  then Some (field failure (lit "context"))
  else if truthy (field failure (lit "errors"))
       then Some (field failure (lit "errors"))
       else None.

Definition or_default (A : Type) (o : option A) (d : A) : A :=
  match o with
  | Some a => a
  | None => d
  end.

Definition normalized (failure : JsValue) : NormalizedError :=
  mkNormalizedError
    (match specific_name failure with
     | Some n => n
     | None => or_default (message_text failure)
                          (JsString (lit "unspecified-error"))
     end)
    (or_default (declared_status failure) (JsNumber (num 500)))
    (or_default (declared_detail failure) (object_literal [])).

(** The fallback for a failure that declares nothing. *)
Definition fallback_body : JsValue :=
  ErrorHandler.body (JsString (lit "unspecified-error")) (JsNumber (num 500))
                    (object_literal []).

(** Environments for the examples: no global [log]; a console whose
    methods return, or one whose methods throw.  No status of the
    examples is a string, an array or an object, so [ToNumber_platform]
    is not consulted there; it answers NaN, as the platform does on a
    plain object. *)
Definition quiet_console : Logger :=
  mkLogger (fun _ => Normal tt) (fun _ => Normal tt).

Definition failing_logger : Logger :=
  mkLogger (fun _ => Throw (JsString (lit "log transport down")))
           (fun _ => Throw (JsString (lit "log transport down"))).

(** [JSON.stringify] as Node runs it on the values represented here: it
    throws a TypeError when a BigInt stands in the value itself, in an
    element or in an own property, at any depth, and returns otherwise. *)
Fixpoint serialisable (v : JsValue) : bool :=
  match v with
  | JsBigInt _ => false
  | JsArray elems => forallb serialisable elems
  | JsObject props _ =>
      forallb (fun kv => match kv with (_, x) => serialisable x end) props
  | _ => true
  end.

Definition node_stringify (v : JsValue) : Completion unit :=
  if serialisable v then Normal tt
  else Throw (TypeError (lit "Do not know how to serialize a BigInt")).

(** ToInt32, the conversion of [statusCode |= 0]. *)
Definition ToInt32 (n : spec_float) : Z :=
  match n with
  | S754_finite s m e =>
      let magnitude := if (0 <=? e)%Z then (Zpos m * 2 ^ e)%Z
                       else (Zpos m / 2 ^ (- e))%Z in
      let k := (cond_Zopp s magnitude mod 2 ^ 32)%Z in
      if (2 ^ 31 <=? k)%Z then (k - 2 ^ 32)%Z else k
  | _ => 0%Z
  end.

(** [response.json] of Express 4 on a response of Node whose headers are
    not sent yet: the body is serialised with [JSON.stringify], then
    [writeHead] converts the status code with [|= 0] and throws a
    RangeError unless it lies in 100..999.  The number a string, array or
    object status stands for is taken from [platform].  The errors are
    kept without their [code] and [stack], and the message of the
    RangeError without the offending code that Node appends. *)
Definition node_response_json (platform : JsValue -> Completion spec_float)
    (status body : JsValue) : Completion unit :=
  let! _ := node_stringify body in
  let! x := match status with
            | JsUndefined => Normal S754_nan
            | JsNull => Normal (S754_zero false)
            | JsBool b => Normal (if b then num 1 else S754_zero false)
            | JsNumber n => Normal n
            | JsBigInt _ =>
                Throw (TypeError (lit "Cannot mix BigInt and other types"))
            | _ => platform status
            end in
  if ((100 <=? ToInt32 x) && (ToInt32 x <=? 999))%Z then Normal tt
  else Throw (RangeError (lit "Invalid status code")).

Definition quiet_env : Env :=
  mkEnv None quiet_console (fun _ => Normal S754_nan) node_stringify
        (node_response_json (fun _ => Normal S754_nan)).

Definition failing_log_env : Env :=
  mkEnv (Some failing_logger) quiet_console (fun _ => Normal S754_nan)
        node_stringify (node_response_json (fun _ => Normal S754_nan)).

(** Keys of an options object are pairwise different. *)
Definition unique_keys (o : Options) : Prop := NoDup (map fst o).

Definition supplied_lookup (k : JsStr) (supplied : option Options)
  : option OptionValue :=
  match supplied with
  | Some o => lookup k o
  | None => None
  end.

(** A string without a line feed. *)
Definition no_newline (s : JsStr) : Prop := ~ In 10%N s.

(** The number a Number stands for when it is an integer. *)
Definition integer_value (n : spec_float) : option Z :=
  match n with
  | S754_zero _ => Some 0%Z
  | S754_finite s m e =>
      if (0 <=? e)%Z then Some (cond_Zopp s (Zpos m * 2 ^ e))
      else if (Zpos m mod 2 ^ (- e) =? 0)%Z
           then Some (cond_Zopp s (Zpos m / 2 ^ (- e)))
           else None
  | _ => None
  end.

(** A platform for the examples.  Its [Number_toString] is the
    platform's on the integers below 10^21, written in decimal digits;
    its [Object_toString] is the platform's on plain objects.  The
    examples convert no other number, no array and parse no float, where
    these answers would not be the platform's. *)
Definition sample_platform : Platform :=
  mkPlatform
    (fun n => match integer_value n with
              | Some z => if (Z.abs z <? 10 ^ 21)%Z
                          then lit (NilZero.string_of_int (Z.to_int z))
                          else lit "NaN"
              | None => lit "NaN"
              end)
    (fun _ => Normal (lit "[object Object]"))
    (fun _ => S754_nan).

(** An [options.log] whose [info] returns, and one whose [info] throws. *)
Definition quiet_log : OptionsLog := fun _ _ => Normal tt.

Definition failing_log : OptionsLog :=
  fun _ _ => Throw (JsString (lit "log transport down")).

(** [global.n9NodeRoutingData] with [formatLogInJSON] set or not. *)
Definition routing_data (formatLogInJSON : bool) : JsValue :=
  object_literal [(lit "formatLogInJSON", JsBool formatLogInJSON)].

(** An error of the kind [server.listen] reports: [syscall] and [code]
    beside the message. *)
Definition listen_error (code : JsStr) : JsValue :=
  JsObject [(lit "message", JsString (lit "listen " ++ code));
            (lit "code", JsString code);
            (lit "syscall", JsString (lit "listen"))]
           Error_prototype.

(** The catch branch of [write], run after the calls [t']. *)
Definition written_fallback (log : OptionsLog) (message : JsStr) (e : JsValue)
    (t' : InfoLog) : InfoLog * Completion unit :=
  (t' ++ [(strip_newline message, ErrString e)],
   log (strip_newline message) (ErrString e)).

(** The parser holds no [undefined] as a complete value. *)
Definition settled (m : JSON.Mode) : Prop :=
  match m with
  | JSON.MAfter v => v <> JsUndefined
  | _ => True
  end.

(* ===================================================================== *)
(** * Basic facts *)
(* ===================================================================== *)

Lemma str_eqb_eq (a b : JsStr) : str_eqb a b = true <-> a = b.
Proof.
  revert b; induction a as [|x a IH]; intros [|y b]; simpl;
    try (split; [discriminate | discriminate]); try tauto.
  rewrite andb_true_iff, N.eqb_eq, IH.
  split; [intros [-> ->]; reflexivity | intros H; inversion H; auto].
Qed.

Lemma str_eqb_refl (a : JsStr) : str_eqb a a = true.
Proof. apply str_eqb_eq; reflexivity. Qed.

Lemma str_eqb_neq (a b : JsStr) : str_eqb a b = false <-> a <> b.
Proof.
  rewrite <- str_eqb_eq. destruct (str_eqb a b); split; congruence.
Qed.

Lemma lookup_set_prop (V : Type) (k k' : JsStr) (v : V) (ps : list (JsStr * V)) :
  lookup k (set_prop k' v ps) = if str_eqb k k' then Some v else lookup k ps.
Proof.
  induction ps as [|[k2 v2] ps IH]; simpl.
  - reflexivity.
  - destruct (str_eqb k' k2) eqn:E; simpl.
    + apply str_eqb_eq in E; subst k2.
      destruct (str_eqb k k'); reflexivity.
    + destruct (str_eqb k k2) eqn:E2.
      * apply str_eqb_eq in E2; subst k2.
        destruct (str_eqb k k') eqn:E3; [|reflexivity].
        apply str_eqb_eq in E3; subst k'. rewrite str_eqb_refl in E; discriminate.
      * exact IH.
Qed.

Lemma lookup_absent (V : Type) (k : JsStr) (ps : list (JsStr * V)) :
  ~ In k (map fst ps) -> lookup k ps = None.
Proof.
  induction ps as [|[k2 v2] ps IH]; simpl; intros H; [reflexivity|].
  destruct (str_eqb k k2) eqn:E.
  - apply str_eqb_eq in E; subst; tauto.
  - apply IH; tauto.
Qed.

(** [Object.assign] on a source with pairwise different keys: the
    source's value where it has the key, the target's elsewhere. *)
Lemma lookup_assign (k : JsStr) (source target : Options) :
  unique_keys source ->
  lookup k (assign target source)
  = match lookup k source with
    | Some v => Some v
    | None => lookup k target
    end.
Proof.
  unfold assign, unique_keys.
  revert target; induction source as [|[k1 v1] source IH]; intros target U; simpl.
  - reflexivity.
  - inversion U as [|? ? Hnotin U']; subst.
    rewrite (IH _ U'), lookup_set_prop.
    destruct (str_eqb k k1) eqn:E.
    + apply str_eqb_eq in E; subst k1.
      rewrite (lookup_absent _ _ Hnotin); reflexivity.
    + reflexivity.
Qed.

(** Reads on a value that is neither [null] nor [undefined] return. *)
Lemma get_field (v : JsValue) (k : JsStr) :
  nullish v = false -> get v k = Normal (field v k).
Proof. destruct v; simpl; intros H; try discriminate; reflexivity. Qed.

Lemma get_nullish (v : JsValue) (k : JsStr) :
  nullish v = true -> get v k = Throw (TypeError (cannot_read k v)).
Proof. destruct v; simpl; intros H; try discriminate; reflexivity. Qed.

(** ** [JSON.parse] never answers [undefined] *)

Lemma scalar_defined (t : JSON.token) (v : JsValue) :
  JSON.scalar t = Some v -> v <> JsUndefined.
Proof. destruct t; simpl; intros H; inversion H; discriminate. Qed.

Lemma value_start_settled (stack : list JSON.Context) (t : JSON.token) m stack' :
  JSON.value_start stack t = Some (m, stack') -> settled m.
Proof.
  unfold JSON.value_start.
  destruct t; simpl; intros H; inversion H; subst; simpl; auto; discriminate.
Qed.

Lemma parse_step_settled m stack t m' stack' :
  JSON.parse_step m stack t = Some (m', stack') -> settled m'.
Proof.
  destruct m; simpl.
  - apply value_start_settled.
  - destruct t; try apply value_start_settled.
    intros H; inversion H; simpl; discriminate.
  - destruct t; intros H; inversion H; simpl; auto. discriminate.
  - destruct t; intros H; inversion H; simpl; auto.
  - destruct t; intros H; inversion H; simpl; auto.
  - destruct stack as [|[es|ps k] st]; [discriminate| |];
      destruct t; intros H; inversion H; simpl; auto; discriminate.
Qed.

Lemma parse_tokens_defined ts : forall m stack v,
  settled m -> JSON.parse_tokens m stack ts = Some v -> v <> JsUndefined.
Proof.
  induction ts as [|t ts IH]; intros m stack v Hm; simpl.
  - destruct m; try discriminate. destruct stack; [|discriminate].
    intros H; inversion H; subst; exact Hm.
  - destruct (JSON.parse_step m stack t) as [[m' stack']|] eqn:E; [|discriminate].
    apply IH. eapply parse_step_settled; eauto.
Qed.

Lemma parse_defined (text : JsStr) (v : JsValue) :
  JSON.parse text = Normal v -> v <> JsUndefined.
Proof.
  unfold JSON.parse.
  destruct (JSON.lex JSON.LIdle text) as [ts|]; [|discriminate].
  destruct (JSON.parse_tokens JSON.MValue [] ts) as [v'|] eqn:E; [|discriminate].
  intros H; inversion H; subst.
  eapply parse_tokens_defined; [|exact E]. exact I.
Qed.

(** The empty text is no JSON text. *)
Lemma parse_empty : JSON.parse [] = Throw JSON.SyntaxError.
Proof. reflexivity. Qed.

Lemma parse_nonempty (text : JsStr) (v : JsValue) :
  JSON.parse text = Normal v -> truthy (JsString text) = true.
Proof.
  destruct text; [rewrite parse_empty; discriminate | reflexivity].
Qed.

(* ===================================================================== *)
(** * The session gate *)
(* ===================================================================== *)

Section Gate.

Variable request : Request.

(** Line 81: a header that is absent or empty takes the first exit,
    with the request untouched. *)
Lemma gate_no_header :
  truthy (header_value (headers_session request)) = false ->
  authorizationChecker request = (request, Throw SessionRequired).
Proof.
  intros H. unfold authorizationChecker, bind, read, when, throw.
  rewrite H. reflexivity.
Qed.

(** Lines 84-88: whatever [JSON.parse] throws becomes the second
    failure, with the request untouched. *)
Lemma gate_unparseable (text : JsStr) (err : JsValue) :
  headers_session request = Some text ->
  text <> [] ->
  JSON.parse text = Throw err ->
  authorizationChecker request = (request, Throw SessionHeaderInvalid).
Proof.
  intros Hh Hne Hp.
  unfold authorizationChecker, bind, read, when, throw, try_catch, lift, ret.
  rewrite Hh; simpl.
  destruct text as [|c text]; [congruence|]. simpl.
  rewrite Hp. reflexivity.
Qed.

(** Lines 85 and 89-92: a header that parses is stored in the session
    slot, then its [userId] is read and tested. *)
Lemma gate_parsed (text : JsStr) (v : JsValue) :
  headers_session request = Some text ->
  JSON.parse text = Normal v ->
  authorizationChecker request
  = (set_session v request,
     match get v (lit "userId") with
     | Normal userId =>
         if truthy userId then Normal true
         else Throw SessionHeaderMissingUserId
     | Throw e => Throw e
     end).
Proof.
  intros Hh Hp.
  pose proof (parse_nonempty _ Hp) as Hne.
  unfold authorizationChecker, bind, read, when, throw, try_catch, lift, ret,
    modify.
  rewrite Hh. unfold header_value, ToString_header. rewrite Hne. simpl.
  rewrite Hp. simpl.
  destruct (get v (lit "userId")) as [u|e]; [|reflexivity].
  destruct (truthy u); reflexivity.
Qed.

End Gate.

(** The same for a parsed value other than [null], whose [userId] can
    be read. *)
Lemma gate_parsed_value (request : Request) (text : JsStr) (v : JsValue) :
  headers_session request = Some text ->
  JSON.parse text = Normal v ->
  v <> JsNull ->
  authorizationChecker request
  = (set_session v request,
     if lacks_truthy_userId v then Throw SessionHeaderMissingUserId
     else Normal true).
Proof.
  intros Hh Hp Hnull.
  rewrite (@gate_parsed request text v Hh Hp).
  assert (Hn : nullish v = false).
  { pose proof (@parse_defined text v Hp). destruct v; simpl; congruence. }
  rewrite (@get_field v (lit "userId") Hn). unfold lacks_truthy_userId.
  destruct (truthy (field v (lit "userId"))); reflexivity.
Qed.

(** What the interceptor makes of a gate failure: status 401 and the
    message as code. *)
Lemma N9Error_401_normalized (message : JsStr) :
  message <> [] ->
  ErrorHandler.status (N9Error message (num 401)) = Normal (JsNumber (num 401))
  /\ ErrorHandler.code (N9Error message (num 401)) = Normal (JsString message)
  /\ ErrorHandler.context (N9Error message (num 401)) = Normal (object_literal []).
Proof.
  intros H. destruct message as [|c m]; [congruence|].
  repeat split; reflexivity.
Qed.

(** C1 (as amended). The gate decides by this case analysis: a header that is
    absent or is the empty string fails with N9Error("session-required", 401);
    otherwise a header that JSON.parse rejects fails with
    N9Error("session-header-is-invalid", 401); otherwise a parsed value other
    than null without a truthy userId fails with
    N9Error("session-header-has-no-userId", 401) and a parsed value with a
    truthy userId passes (the checker returns true).  Each of the three
    failures is normalized by the interceptor to status 401 and its message
    as code. *)
Theorem C1_gate_case_analysis (request : Request) :
  (truthy (header_value (headers_session request)) = false ->
   authorizationChecker request = (request, Throw SessionRequired))
  /\ (forall text err,
         headers_session request = Some text -> text <> [] ->
         JSON.parse text = Throw err ->
         authorizationChecker request = (request, Throw SessionHeaderInvalid))
  /\ (forall text v,
         headers_session request = Some text ->
         JSON.parse text = Normal v -> v <> JsNull ->
         authorizationChecker request
         = (set_session v request,
            if lacks_truthy_userId v then Throw SessionHeaderMissingUserId
            else Normal true))
  /\ (forall failure,
         In failure [SessionRequired; SessionHeaderInvalid;
                     SessionHeaderMissingUserId] ->
         ErrorHandler.status failure = Normal (JsNumber (num 401))
         /\ ErrorHandler.code failure = Normal (field failure (lit "message"))).
Proof.
  split; [apply gate_no_header|].
  split; [apply gate_unparseable|].
  split.
  - apply gate_parsed_value.
  - intros failure [<-|[<-|[<-|[]]]]; split; reflexivity.
Qed.

(** The four branches of C1 at the four requests of
    [test/micro-auth-proxy.ts], plus the empty header. *)
Lemma C1_gate_case_analysis_witness :
  authorizationChecker (incoming None) = (incoming None, Throw SessionRequired)
  /\ authorizationChecker (incoming (Some []))
     = (incoming (Some []), Throw SessionRequired)
  /\ authorizationChecker (incoming (Some (lit "bad")))
     = (incoming (Some (lit "bad")), Throw SessionHeaderInvalid)
  /\ snd (authorizationChecker (incoming (Some (dq "{'noUserId':true}"))))
     = Throw SessionHeaderMissingUserId
  /\ snd (authorizationChecker
            (incoming (Some (dq "{'userId':1,'name':'Bruce Wayne'}"))))
     = Normal true.
Proof.
  split; [apply (C1_gate_case_analysis (incoming None)); reflexivity|].
  split; [apply (C1_gate_case_analysis (incoming (Some []))); reflexivity|].
  split.
  - destruct (C1_gate_case_analysis (incoming (Some (lit "bad"))))
      as (_ & H & _).
    apply (H (lit "bad") JSON.SyntaxError);
      [reflexivity | discriminate | reflexivity].
  - destruct (C1_gate_case_analysis (incoming (Some (dq "{'noUserId':true}"))))
      as (_ & _ & H1 & _).
    destruct (C1_gate_case_analysis
                (incoming (Some (dq "{'userId':1,'name':'Bruce Wayne'}"))))
      as (_ & _ & H2 & _).
    split.
    + erewrite H1; [|reflexivity|vm_compute; reflexivity|discriminate].
      reflexivity.
    + erewrite H2; [|reflexivity|vm_compute; reflexivity|discriminate].
      reflexivity.
Defined.

(** C1, counterexample. On a request whose session header is present and
    empty the case analysis of the claim gives "session-header-is-invalid"
    (the value is there and is no JSON text); the gate answers
    "session-required". *)
Lemma C1_counterexample_empty_header :
  specified_gate (Some []) = Throw SessionHeaderInvalid
  /\ snd (authorizationChecker (incoming (Some []))) = Throw SessionRequired
  /\ snd (authorizationChecker (incoming (Some []))) <> specified_gate (Some []).
Proof.
  split; [reflexivity|]. split; [reflexivity|].
  vm_compute. discriminate.
Qed.

(** C4 (as amended). A request whose session header is present and equal to
    the empty string fails with N9Error("session-required", 401), the failure
    of an absent header: the test of line 81 is a truthiness test and the
    empty string is falsy, so JSON.parse is never reached.  The request is
    left as it was, and the interceptor normalizes the failure to status 401
    and code "session-required". *)
Theorem C4_empty_header_is_session_required (slot : JsValue) :
  authorizationChecker (mkRequest (Some []) slot)
  = (mkRequest (Some []) slot, Throw SessionRequired)
  /\ ErrorHandler.status SessionRequired = Normal (JsNumber (num 401))
  /\ ErrorHandler.code SessionRequired
     = Normal (JsString (lit "session-required")).
Proof.
  split; [|split; reflexivity].
  apply gate_no_header. reflexivity.
Qed.

(** C4, counterexample. The empty header is not answered with
    "session-header-is-invalid", although JSON.parse would reject it. *)
Lemma C4_counterexample_empty_header :
  JSON.parse [] = Throw JSON.SyntaxError
  /\ snd (authorizationChecker (incoming (Some []))) <> Throw SessionHeaderInvalid.
Proof.
  split; [reflexivity|]. vm_compute. discriminate.
Qed.

(** Every header that parses to something other than null and lacks a
    truthy userId fails with the third failure; the parsed value is
    already in the session slot then. *)
Lemma gate_missing_userId (request : Request) (text : JsStr) (v : JsValue) :
  headers_session request = Some text ->
  JSON.parse text = Normal v ->
  v <> JsNull ->
  lacks_truthy_userId v = true ->
  authorizationChecker request
  = (set_session v request, Throw SessionHeaderMissingUserId).
Proof.
  intros Hh Hp Hnull Hl.
  rewrite (@gate_parsed_value request text v Hh Hp Hnull), Hl. reflexivity.
Qed.

Example gate_header_5 :
  JSON.parse (lit "5") = Normal (JsNumber (num 5))
  /\ snd (authorizationChecker (incoming (Some (lit "5"))))
     = Throw SessionHeaderMissingUserId.
Proof. split; vm_compute; reflexivity. Qed.

Example gate_header_userId_0 :
  JSON.parse (dq "{'userId':0}")
  = Normal (object_literal [(lit "userId", JsNumber (S754_zero false))])
  /\ snd (authorizationChecker (incoming (Some (dq "{'userId':0}"))))
     = Throw SessionHeaderMissingUserId.
Proof. split; vm_compute; reflexivity. Qed.

(** C5 (the code at the failing input). The header [null] is valid JSON and
    its value lacks a truthy userId, yet the gate does not fail with
    N9Error("session-header-has-no-userId", 401): the read of [userId] on
    line 89 throws a TypeError, which the interceptor normalizes to status
    500 and code "TypeError". *)
Theorem C5_null_header_throws_TypeError :
  let thrown := TypeError (cannot_read (lit "userId") JsNull) in
  JSON.parse (lit "null") = Normal JsNull
  /\ lacks_truthy_userId JsNull = true
  /\ authorizationChecker (incoming (Some (lit "null")))
     = (mkRequest (Some (lit "null")) JsNull, Throw thrown)
  /\ thrown <> SessionHeaderMissingUserId
  /\ ErrorHandler.status thrown = Normal (JsNumber (num 500))
  /\ ErrorHandler.code thrown = Normal (JsString (lit "TypeError")).
Proof.
  cbv zeta. repeat split; try (vm_compute; reflexivity).
  vm_compute. discriminate.
Qed.

(** C6. When the session header parses to an object with a truthy userId,
    the gate throws nothing, returns true (the request goes on to its
    handler) and leaves in the request's session slot exactly the parsed
    object; the header is untouched. *)
Theorem C6_valid_session_attached
  (request : Request) (text : JsStr)
  (props : list (JsStr * JsValue)) (proto : JsValue) :
  headers_session request = Some text ->
  JSON.parse text = Normal (JsObject props proto) ->
  truthy (field (JsObject props proto) (lit "userId")) = true ->
  authorizationChecker request
  = (mkRequest (Some text) (JsObject props proto), Normal true).
Proof.
  intros Hh Hp Hu.
  rewrite (@gate_parsed request text (JsObject props proto) Hh Hp).
  unfold set_session. rewrite Hh.
  rewrite (@get_field (JsObject props proto) (lit "userId") eq_refl), Hu.
  reflexivity.
Qed.

(** C6 at the session of [test/micro-auth-proxy.ts]: both fields of
    [{ userId: 1, name: 'Bruce Wayne' }] reach the request. *)
Lemma C6_valid_session_attached_witness :
  authorizationChecker
    (incoming (Some (dq "{'userId':1,'name':'Bruce Wayne'}")))
  = (mkRequest (Some (dq "{'userId':1,'name':'Bruce Wayne'}"))
               (JsObject [(lit "userId", JsNumber (num 1));
                          (lit "name", JsString (lit "Bruce Wayne"))]
                         Object_prototype),
     Normal true).
Proof.
  apply (@C6_valid_session_attached
           (incoming (Some (dq "{'userId':1,'name':'Bruce Wayne'}")))
           (dq "{'userId':1,'name':'Bruce Wayne'}")).
  - reflexivity.
  - vm_compute. reflexivity.
  - vm_compute. reflexivity.
Defined.

(* ===================================================================== *)
(** * The error interceptor *)
(* ===================================================================== *)

(** ** The three computed values *)

Lemma status_normalized (failure : JsValue) :
  nullish failure = false ->
  ErrorHandler.status failure = Normal (ne_status (normalized failure)).
Proof.
  intros H. unfold ErrorHandler.status, normalized, declared_status; simpl.
  rewrite (@get_field failure (lit "status") H),
          (@get_field failure (lit "httpCode") H). simpl.
  destruct (truthy (field failure (lit "status"))); [reflexivity|].
  unfold js_or.
  destruct (truthy (field failure (lit "httpCode"))); reflexivity.
Qed.

Lemma strict_neq_generic (n : JsValue) :
  strict_neq_string n (lit "Error") = negb (generic_name n).
Proof. destruct n; reflexivity. Qed.

Lemma code_normalized (failure : JsValue) :
  nullish failure = false ->
  ErrorHandler.code failure = Normal (ne_code (normalized failure)).
Proof.
  intros H. unfold ErrorHandler.code, normalized, specific_name, message_text.
  rewrite (@get_field failure (lit "name") H),
          (@get_field failure (lit "message") H). simpl.
  rewrite strict_neq_generic.
  destruct (truthy (field failure (lit "name"))
            && negb (generic_name (field failure (lit "name")))); [reflexivity|].
  destruct (truthy (field failure (lit "message"))); reflexivity.
Qed.

Lemma context_normalized (failure : JsValue) :
  nullish failure = false ->
  ErrorHandler.context failure = Normal (ne_context (normalized failure)).
Proof.
  intros H. unfold ErrorHandler.context, normalized, declared_detail; simpl.
  rewrite (@get_field failure (lit "context") H),
          (@get_field failure (lit "errors") H). simpl.
  destruct (truthy (field failure (lit "context"))); [reflexivity|].
  unfold js_or.
  destruct (truthy (field failure (lit "errors"))); reflexivity.
Qed.

Lemma status_returns (failure st : JsValue) :
  ErrorHandler.status failure = Normal st -> nullish failure = false.
Proof.
  destruct (nullish failure) eqn:E; [|reflexivity].
  unfold ErrorHandler.status.
  rewrite (@get_nullish failure (lit "status") E). discriminate.
Qed.

(** A failure that is neither an object nor nullish declares nothing. *)
Lemma normalized_non_object (failure : JsValue) :
  is_object failure = false ->
  normalized failure
  = mkNormalizedError (JsString (lit "unspecified-error"))
                      (JsNumber (num 500)) (object_literal []).
Proof. destruct failure; simpl; intros H; try discriminate; reflexivity. Qed.

(** ** The logger call *)

Lemma log_failure_run (env : Env) (failure st : JsValue) (t : Trace) :
  ErrorHandler.log_failure env failure st t
  = match js_lt env st (num 500) with
    | Normal true =>
        match JSON_stringify env failure with
        | Normal _ =>
            (t ++ [Log Warn [Val failure; Stringified failure]],
             log_warn (logger env) [Val failure; Stringified failure])
        | Throw x => (t, Throw x)
        end
    | Normal false =>
        (t ++ [Log Error [Val failure]],
         log_error (logger env) [Val failure])
    | Throw x => (t, Throw x)
    end.
Proof.
  unfold ErrorHandler.log_failure, bind, lift, call_logger, modify.
  destruct (js_lt env st (num 500)) as [[|]|x]; reflexivity.
Qed.

(** The logger call adds at most one event, a [Log] event, after what
    was there. *)
Lemma log_failure_trace (env : Env) (failure st : JsValue) (t : Trace) :
  exists calls,
    fst (ErrorHandler.log_failure env failure st t) = t ++ calls
    /\ responses calls = []
    /\ logged calls
       = match js_lt env st (num 500) with
         | Normal true =>
             match JSON_stringify env failure with
             | Normal _ => [Warn]
             | Throw _ => []
             end
         | Normal false => [Error]
         | Throw _ => []
         end.
Proof.
  rewrite log_failure_run.
  destruct (js_lt env st (num 500)) as [[|]|x]; simpl.
  - destruct (JSON_stringify env failure); simpl.
    + exists [Log Warn [Val failure; Stringified failure]]. auto.
    + exists []. rewrite app_nil_r. auto.
  - exists [Log Error [Val failure]]. auto.
  - exists []. rewrite app_nil_r. auto.
Qed.


Lemma responses_app (t u : Trace) : responses (t ++ u) = responses t ++ responses u.
Proof. unfold responses. apply filter_app. Qed.

Lemma logged_app (t u : Trace) : logged (t ++ u) = logged t ++ logged u.
Proof. unfold logged. apply flat_map_app. Qed.

(** ** The whole method *)

(** On a failure with properties the method computes the three values,
    makes the logger call and, when that returns, sets the status and
    calls [response.json], whose completion is its own; what the logger
    call throws goes through. *)
Lemma error_run (env : Env) (failure : JsValue) (t : Trace) :
  nullish failure = false ->
  ErrorHandler.error env failure t
  = let n := normalized failure in
    match ErrorHandler.log_failure env failure (ne_status n) t with
    | (t', Normal _) =>
        (t' ++ [ResponseStatus (ne_status n);
                ResponseJson (ErrorHandler.body (ne_code n) (ne_status n)
                                                (ne_context n))],
         response_json_result env (ne_status n)
           (ErrorHandler.body (ne_code n) (ne_status n) (ne_context n)))
    | (t', Throw x) => (t', Throw x)
    end.
Proof.
  intros H. unfold ErrorHandler.error, bind, lift.
  rewrite (@status_normalized failure H), (@code_normalized failure H),
    (@context_normalized failure H).
  cbv zeta.
  destruct (ErrorHandler.log_failure env failure _ t) as [t' [[]|x]];
    [|reflexivity].
  unfold response_status, response_json, modify, bind, lift.
  rewrite <- app_assoc.
  destruct (response_json_result env _ _); reflexivity.
Qed.

Lemma error_nullish (env : Env) (failure : JsValue) (t : Trace) :
  nullish failure = true ->
  ErrorHandler.error env failure t
  = (t, Throw (TypeError (cannot_read (lit "status") failure))).
Proof.
  intros H. unfold ErrorHandler.error, bind, lift, ErrorHandler.status.
  rewrite (@get_nullish failure (lit "status") H). reflexivity.
Qed.

(** When the logger call returns, the method completes as
    [response.json] does, and the two response calls are those of the
    normalized failure. *)
Lemma error_responds (env : Env) (failure : JsValue) :
  nullish failure = false ->
  snd (ErrorHandler.log_failure env failure
         (ne_status (normalized failure)) []) = Normal tt ->
  snd (ErrorHandler.error env failure [])
  = response_json_result env (ne_status (normalized failure))
      (ErrorHandler.body (ne_code (normalized failure))
                         (ne_status (normalized failure))
                         (ne_context (normalized failure)))
  /\ responses (fst (ErrorHandler.error env failure []))
     = [ResponseStatus (ne_status (normalized failure));
        ResponseJson (ErrorHandler.body (ne_code (normalized failure))
                                        (ne_status (normalized failure))
                                        (ne_context (normalized failure)))].
Proof.
  intros H Hlog. rewrite (@error_run env failure [] H). cbv zeta.
  destruct (log_failure_trace env failure (ne_status (normalized failure)) [])
    as (calls & Ht & Hr & _).
  destruct (ErrorHandler.log_failure env failure _ []) as [t' c].
  simpl in *. subst. split; [reflexivity|].
  simpl. rewrite responses_app, Hr. reflexivity.
Qed.





(** C3 (as amended). For every failure value other than null and undefined,
    primitives and arrays included, once the logger call has returned the
    interceptor sets a status and calls response.json with a body, and it
    completes normally when response.json returns; when the failure is not an
    object these are status 500 and the body {code: "unspecified-error",
    status: 500, context: {}}, on which the response.json of Node returns. *)
Theorem C3_completes_on_non_nullish (env : Env) (failure : JsValue) :
  nullish failure = false ->
  snd (ErrorHandler.log_failure env failure
         (ne_status (normalized failure)) []) = Normal tt ->
  let n := normalized failure in
  let body := ErrorHandler.body (ne_code n) (ne_status n) (ne_context n) in
  responses (fst (ErrorHandler.error env failure []))
  = [ResponseStatus (ne_status n); ResponseJson body]
  /\ (response_json_result env (ne_status n) body = Normal tt ->
      snd (ErrorHandler.error env failure []) = Normal tt)
  /\ (is_object failure = false ->
      ne_status n = JsNumber (num 500)
      /\ body = fallback_body
      /\ (forall platform,
            response_json_result env = node_response_json platform ->
            snd (ErrorHandler.error env failure []) = Normal tt)).
Proof.
  intros Hn Hlog n body.
  destruct (@error_responds env failure Hn Hlog) as [Hc Hr].
  split; [exact Hr|]. split.
  - intros Hj. rewrite Hc. exact Hj.
  - intros Hobj. subst body n.
    rewrite Hc, (@normalized_non_object failure Hobj).
    split; [reflexivity|]. split; [reflexivity|].
    intros platform ->. reflexivity.
Qed.

(** C3 at the thrown string ['boom'] and the thrown number [5]. *)
Lemma C3_completes_on_non_nullish_witness :
  responses (fst (ErrorHandler.error quiet_env (JsString (lit "boom")) []))
  = [ResponseStatus (JsNumber (num 500)); ResponseJson fallback_body]
  /\ snd (ErrorHandler.error quiet_env (JsNumber (num 5)) []) = Normal tt.
Proof.
  split.
  - apply (@C3_completes_on_non_nullish quiet_env (JsString (lit "boom")));
      reflexivity.
  - apply (proj1 (proj2 (@C3_completes_on_non_nullish quiet_env
                           (JsNumber (num 5)) eq_refl eq_refl))).
    reflexivity.
Defined.

(** C3, counterexample. The interceptor does throw, and then no response is
    written: on the failure value null, at its first property read; on the
    thrown string ['boom'] when the logger's error method throws, since
    nothing in the method catches what the logger call throws; and on the
    failure {status: 99}, where the logger has returned and response.json
    throws the RangeError of Node for the status code. *)
Lemma C3_counterexample_interceptor_throws :
  ErrorHandler.error quiet_env JsNull []
  = ([], Throw (TypeError (cannot_read (lit "status") JsNull)))
  /\ responses (fst (ErrorHandler.error quiet_env JsNull [])) = []
  /\ ErrorHandler.error failing_log_env (JsString (lit "boom")) []
     = ([Log Error [Val (JsString (lit "boom"))]],
        Throw (JsString (lit "log transport down")))
  /\ responses (fst (ErrorHandler.error failing_log_env
                       (JsString (lit "boom")) [])) = []
  /\ fst (ErrorHandler.error quiet_env
            (object_literal [(lit "status", JsNumber (num 99))]) [])
     = [Log Warn [Val (object_literal [(lit "status", JsNumber (num 99))]);
                  Stringified (object_literal
                                 [(lit "status", JsNumber (num 99))])];
        ResponseStatus (JsNumber (num 99));
        ResponseJson (ErrorHandler.body (JsString (lit "unspecified-error"))
                                        (JsNumber (num 99))
                                        (object_literal []))]
  /\ exists thrown,
       snd (ErrorHandler.error quiet_env
              (object_literal [(lit "status", JsNumber (num 99))]) [])
       = Throw thrown.
Proof.
  repeat split; try reflexivity.
  eexists. reflexivity.
Qed.

(** The severities logged by one run of the method. *)
Lemma error_logged (env : Env) (failure : JsValue) :
  nullish failure = false ->
  logged (fst (ErrorHandler.error env failure []))
  = match js_lt env (ne_status (normalized failure)) (num 500) with
    | Normal true =>
        match JSON_stringify env failure with
        | Normal _ => [Warn]
        | Throw _ => []
        end
    | Normal false => [Error]
    | Throw _ => []
    end.
Proof.
  intros H. rewrite (@error_run env failure [] H). cbv zeta.
  destruct (log_failure_trace env failure (ne_status (normalized failure)) [])
    as (calls & Ht & _ & Hl).
  destruct (ErrorHandler.log_failure env failure _ []) as [t' [[]|x]];
    simpl in *; subst t'; [|exact Hl].
  rewrite logged_app, Hl. simpl. apply app_nil_r.
Qed.

(** The same once the logger call is known to have returned. *)
Lemma error_logged_returned (env : Env) (failure : JsValue) :
  nullish failure = false ->
  snd (ErrorHandler.log_failure env failure
         (ne_status (normalized failure)) []) = Normal tt ->
  logged (fst (ErrorHandler.error env failure []))
  = match js_lt env (ne_status (normalized failure)) (num 500) with
    | Normal true => [Warn]
    | _ => [Error]
    end.
Proof.
  intros H Hlog. rewrite (@error_logged env failure H).
  rewrite log_failure_run in Hlog.
  destruct (js_lt env (ne_status (normalized failure)) (num 500))
    as [[|]|x]; try reflexivity; [|discriminate].
  destruct (JSON_stringify env failure); [reflexivity|discriminate].
Qed.





(** C8 (as amended). The status, code and context of the response are
    functions of the failure alone; they are computed before the logger is
    called, and the logger call comes before the response.  If the logger
    call returns (JSON.stringify of the failure included), response.status
    and response.json are called with exactly these values, whatever the
    logger did, and the interceptor completes as response.json does; if the
    logger call throws, the interceptor throws the same value and calls
    neither. *)
Theorem C8_response_follows_logger_call
  (env : Env) (failure : JsValue) (t : Trace) :
  nullish failure = false ->
  let n := normalized failure in
  let after_log := ErrorHandler.log_failure env failure (ne_status n) t in
  let body := ErrorHandler.body (ne_code n) (ne_status n) (ne_context n) in
  ErrorHandler.status failure = Normal (ne_status n)
  /\ ErrorHandler.code failure = Normal (ne_code n)
  /\ ErrorHandler.context failure = Normal (ne_context n)
  /\ (exists calls, fst after_log = t ++ calls /\ responses calls = [])
  /\ match snd after_log with
     | Normal _ =>
         ErrorHandler.error env failure t
         = (fst after_log ++ [ResponseStatus (ne_status n); ResponseJson body],
            response_json_result env (ne_status n) body)
     | Throw x => ErrorHandler.error env failure t = (fst after_log, Throw x)
     end.
Proof.
  intros H n after_log body.
  split; [apply status_normalized; exact H|].
  split; [apply code_normalized; exact H|].
  split; [apply context_normalized; exact H|].
  split.
  - destruct (log_failure_trace env failure (ne_status n) t)
      as (calls & Ht & Hr & _).
    exists calls; split; assumption.
  - rewrite (@error_run env failure t H). cbv zeta.
    subst after_log body n.
    destruct (ErrorHandler.log_failure env failure _ t) as [t' [[]|x]];
      reflexivity.
Qed.

(** C8 on a 404 failure, once with a logger that returns and once with a
    logger that throws. *)
Lemma C8_response_follows_logger_call_witness :
  ErrorHandler.error quiet_env (N9Error (lit "not-found") (num 404)) []
  = ([Log Warn [Val (N9Error (lit "not-found") (num 404));
                Stringified (N9Error (lit "not-found") (num 404))];
      ResponseStatus (JsNumber (num 404));
      ResponseJson (ErrorHandler.body (JsString (lit "not-found"))
                                      (JsNumber (num 404))
                                      (object_literal []))],
     Normal tt)
  /\ ErrorHandler.error failing_log_env (N9Error (lit "not-found") (num 404)) []
     = ([Log Warn [Val (N9Error (lit "not-found") (num 404));
                   Stringified (N9Error (lit "not-found") (num 404))]],
        Throw (JsString (lit "log transport down"))).
Proof.
  split.
  - exact (proj2 (proj2 (proj2 (proj2
      (@C8_response_follows_logger_call quiet_env
         (N9Error (lit "not-found") (num 404)) [] eq_refl))))).
  - exact (proj2 (proj2 (proj2 (proj2
      (@C8_response_follows_logger_call failing_log_env
         (N9Error (lit "not-found") (num 404)) [] eq_refl))))).
Defined.

(** C8, counterexample. With a logger whose warn throws, a 404 failure gets
    no response at all: the interceptor throws what the logger threw, after
    the logger call and before any response event; with a logger that
    returns the same failure is answered. *)
Lemma C8_counterexample_failing_logger :
  let failure := N9Error (lit "not-found") (num 404) in
  responses (fst (ErrorHandler.error failing_log_env failure [])) = []
  /\ snd (ErrorHandler.error failing_log_env failure [])
     = Throw (JsString (lit "log transport down"))
  /\ responses (fst (ErrorHandler.error quiet_env failure []))
     <> responses (fst (ErrorHandler.error failing_log_env failure [])).
Proof.
  cbv zeta. split; [reflexivity|]. split; [reflexivity|].
  vm_compute. discriminate.
Qed.



(* ===================================================================== *)
(** * The routing-controller options *)
(* ===================================================================== *)

Lemma assign_defaults (path : JsStr) :
  assign [] (defaultRoutingControllerOptions path)
  = defaultRoutingControllerOptions path.
Proof. reflexivity. Qed.

(** A field that lines 79-97 do not assign comes from the caller when
    the caller supplies it and from the defaults otherwise. *)
Lemma merged_lookup (path : JsStr) (supplied : option Options) (k : JsStr) :
  (forall o, supplied = Some o -> unique_keys o) ->
  lookup k (Object_assign [] [Some (defaultRoutingControllerOptions path);
                              supplied])
  = match supplied_lookup k supplied with
    | Some v => Some v
    | None => lookup k (defaultRoutingControllerOptions path)
    end.
Proof.
  intros U. unfold Object_assign, supplied_lookup.
  destruct supplied as [o|]; cbn [fold_left].
  - rewrite (@lookup_assign k o _ (U o eq_refl)), assign_defaults. reflexivity.
  - rewrite assign_defaults. reflexivity.
Qed.

(** C9 (as amended). Whatever the caller supplies as
    options.http.routingController, lines 77-97 leave there interceptors =
    [SessionLoaderInterceptor, ErrorHandler], authorizationChecker = the
    session gate and validation = {whitelist: true, forbidNonWhitelisted:
    true}: a value supplied for one of these three fields is discarded.
    Every other field holds the caller's value when the caller supplies one,
    and the default otherwise.  This is the configuration actually used when
    the caller supplies no beforeRoutingControllerLaunchHook; when there is
    one, what is used is what the hook leaves in
    options.http.routingController, and nothing when the hook throws. *)
Theorem C9_routing_controller_options (path : JsStr) (supplied : option Options) :
  let rc := routingController path supplied in
  lookup (lit "interceptors") rc
  = Some (Classes [SessionLoaderInterceptor; ErrorHandler])
  /\ lookup (lit "authorizationChecker") rc = Some (Checker authorizationChecker)
  /\ lookup (lit "validation") rc
     = Some (Data (object_literal [(lit "whitelist", JsBool true);
                                   (lit "forbidNonWhitelisted", JsBool true)]))
  /\ (forall k,
        (forall o, supplied = Some o -> unique_keys o) ->
        k <> lit "interceptors" -> k <> lit "authorizationChecker" ->
        k <> lit "validation" ->
        lookup k rc
        = match supplied_lookup k supplied with
          | Some v => Some v
          | None => lookup k (defaultRoutingControllerOptions path)
          end)
  /\ configuration_used path supplied None = Normal rc
  /\ (forall hook rc',
        hook rc = (rc', Normal tt) ->
        configuration_used path supplied (Some hook) = Normal rc')
  /\ (forall hook rc' e,
        hook rc = (rc', Throw e) ->
        configuration_used path supplied (Some hook) = Throw e).
Proof.
  intros rc. subst rc. unfold routingController. cbv zeta.
  split; [|split; [|split; [|split; [|split]]]].
  - rewrite !lookup_set_prop. reflexivity.
  - rewrite !lookup_set_prop. reflexivity.
  - rewrite !lookup_set_prop. reflexivity.
  - intros k U H1 H2 H3.
    apply str_eqb_neq in H1, H2, H3.
    rewrite !lookup_set_prop, H1, H2, H3.
    apply merged_lookup. exact U.
  - reflexivity.
  - split.
    + intros hook rc' H. unfold configuration_used, routingController.
      cbv zeta. rewrite H. reflexivity.
    + intros hook rc' e H. unfold configuration_used, routingController.
      cbv zeta. rewrite H. reflexivity.
Qed.

(** C9 on a caller that supplies its own interceptors, checker, validation
    and a [routePrefix]: only the last one survives; [defaultErrorHandler]
    keeps its default; with no hook that is what is used. *)
Lemma C9_routing_controller_options_witness :
  let supplied :=
    Some [(lit "interceptors", Classes [OtherInterceptor 1]);
          (lit "authorizationChecker", Checker (ret false));
          (lit "validation", Data (JsBool false));
          (lit "routePrefix", Data (JsString (lit "/api")))] in
  let rc := routingController (lit "/srv/app") supplied in
  lookup (lit "routePrefix") rc = Some (Data (JsString (lit "/api")))
  /\ lookup (lit "defaultErrorHandler") rc = Some (Data (JsBool false))
  /\ lookup (lit "interceptors") rc
     = Some (Classes [SessionLoaderInterceptor; ErrorHandler])
  /\ configuration_used (lit "/srv/app") supplied (Some (ret tt)) = Normal rc.
Proof.
  cbv zeta.
  assert (U : forall o,
             Some [(lit "interceptors", Classes [OtherInterceptor 1]);
                   (lit "authorizationChecker", Checker (ret false));
                   (lit "validation", Data (JsBool false));
                   (lit "routePrefix", Data (JsString (lit "/api")))] = Some o ->
             unique_keys o).
  { intros o E. inversion E; subst. unfold unique_keys. simpl.
    repeat constructor; simpl; intuition discriminate. }
  split; [|split; [|split]].
  - apply (proj1 (proj2 (proj2 (proj2
             (C9_routing_controller_options (lit "/srv/app") _))))
             (lit "routePrefix") U); discriminate.
  - apply (proj1 (proj2 (proj2 (proj2
             (C9_routing_controller_options (lit "/srv/app") _))))
             (lit "defaultErrorHandler") U); discriminate.
  - apply (proj1 (C9_routing_controller_options (lit "/srv/app") _)).
  - apply (proj1 (proj2 (proj2 (proj2 (proj2 (proj2
             (C9_routing_controller_options (lit "/srv/app") _))))))
             (ret tt)).
    reflexivity.
Defined.

(** C9, counterexample. A caller that supplies [validation: false] does not
    get it: validation is not one of the fields the caller may override.  And
    a caller whose beforeRoutingControllerLaunchHook empties
    options.http.routingController.interceptors gets the empty list used:
    the configuration actually used does not always hold the two
    interceptors. *)
Lemma C9_counterexample_validation_and_hook :
  lookup (lit "validation")
         (routingController (lit "/srv/app")
            (Some [(lit "validation", Data (JsBool false))]))
  <> Some (Data (JsBool false))
  /\ exists used,
       configuration_used (lit "/srv/app") None
         (Some (modify (set_prop (lit "interceptors") (Classes []))))
       = Normal used
       /\ lookup (lit "interceptors") used = Some (Classes [])
       /\ lookup (lit "interceptors") used
          <> Some (Classes [SessionLoaderInterceptor; ErrorHandler]).
Proof.
  split; [vm_compute; discriminate|].
  eexists. split; [reflexivity|]. split; [reflexivity|].
  vm_compute. discriminate.
Qed.

(* ===================================================================== *)
(** * More on the session gate *)
(* ===================================================================== *)

Lemma parse_throws (text : JsStr) (e : JsValue) :
  JSON.parse text = Throw e -> e = JSON.SyntaxError.
Proof.
  unfold JSON.parse.
  destruct (JSON.lex JSON.LIdle text) as [ts|]; [|congruence].
  destruct (JSON.parse_tokens JSON.MValue [] ts); [discriminate|congruence].
Qed.

Lemma JsValue_eq_null (v : JsValue) : v = JsNull \/ v <> JsNull.
Proof. destruct v; (left; reflexivity) || (right; discriminate). Qed.

(** The three ways through the gate. *)
Lemma gate_cases (request : Request) :
  (truthy (header_value (headers_session request)) = false
   /\ authorizationChecker request = (request, Throw SessionRequired))
  \/ (exists text,
        headers_session request = Some text
        /\ JSON.parse text = Throw JSON.SyntaxError
        /\ authorizationChecker request = (request, Throw SessionHeaderInvalid))
  \/ (exists text v,
        headers_session request = Some text
        /\ JSON.parse text = Normal v
        /\ authorizationChecker request
           = (set_session v request,
              match v with
              | JsNull => Throw (TypeError (cannot_read (lit "userId") JsNull))
              | _ => if lacks_truthy_userId v
                     then Throw SessionHeaderMissingUserId
                     else Normal true
              end)).
Proof.
  destruct (truthy (header_value (headers_session request))) eqn:Ht.
  - right. destruct (headers_session request) as [text|] eqn:Hh;
      [|discriminate].
    assert (Hne : text <> []) by (intros ->; discriminate).
    destruct (JSON.parse text) as [v|e] eqn:Hp.
    + right. exists text, v. repeat split; try assumption.
      destruct (JsValue_eq_null v) as [->|Hnull].
      * rewrite (@gate_parsed request text JsNull Hh Hp). reflexivity.
      * rewrite (@gate_parsed_value request text v Hh Hp Hnull).
        destruct v; try reflexivity. congruence.
    + left. exists text. pose proof (@parse_throws text e Hp). subst e.
      repeat split; try assumption.
      exact (@gate_unparseable request text _ Hh Hne Hp).
  - left. split; [reflexivity|]. apply gate_no_header. exact Ht.
Qed.

(** X1. Running the gate again on the request it leaves behind changes
    nothing: the request stays as it is and the completion is the same. *)
Theorem X1_gate_idempotent (request : Request) :
  authorizationChecker (fst (authorizationChecker request))
  = authorizationChecker request.
Proof.
  destruct (gate_cases request)
    as [[Ht E]|[(text & Hh & Hp & E)|(text & v & Hh & Hp & E)]].
  - rewrite E. simpl. exact E.
  - rewrite E. simpl. exact E.
  - rewrite E. simpl fst.
    destruct (gate_cases (set_session v request))
      as [[Ht' E']|[(text' & Hh' & Hp' & E')|(text' & v' & Hh' & Hp' & E')]].
    + change (headers_session (set_session v request))
        with (headers_session request) in Ht'.
      rewrite Hh in Ht'. unfold header_value in Ht'.
      rewrite (@parse_nonempty text v Hp) in Ht'. discriminate.
    + simpl in Hh'. congruence.
    + simpl in Hh'. assert (text' = text) by congruence. subst text'.
      assert (v' = v) by congruence. subst v'.
      rewrite E'. reflexivity.
Qed.

(** X2. The gate never answers false: it returns true or throws, and what
    it throws is one of its three failures or, exactly when the header parses
    to null, the TypeError of the property read. *)
Theorem X2_gate_outcomes (request : Request) :
  let outcome := snd (authorizationChecker request) in
  let type_error := TypeError (cannot_read (lit "userId") JsNull) in
  outcome <> Normal false
  /\ (outcome = Normal true
      \/ outcome = Throw SessionRequired
      \/ outcome = Throw SessionHeaderInvalid
      \/ outcome = Throw SessionHeaderMissingUserId
      \/ outcome = Throw type_error)
  /\ (outcome = Throw type_error
      <-> exists text, headers_session request = Some text
                       /\ JSON.parse text = Normal JsNull).
Proof.
  cbv zeta.
  destruct (gate_cases request)
    as [[Ht E]|[(text & Hh & Hp & E)|(text & v & Hh & Hp & E)]];
    rewrite E; simpl snd.
  - split; [discriminate|]. split; [tauto|].
    split; [intros H; vm_compute in H; discriminate|].
    intros (text & Hh & Hp). rewrite Hh in Ht. unfold header_value in Ht.
    rewrite (@parse_nonempty text JsNull Hp) in Ht. discriminate.
  - split; [discriminate|]. split; [tauto|].
    split; [intros H; vm_compute in H; discriminate|].
    intros (text' & Hh' & Hp'). congruence.
  - assert (Hcase :
      v = JsNull \/
      (v <> JsNull /\
       match v with
       | JsNull => Throw (TypeError (cannot_read (lit "userId") JsNull))
       | _ => if lacks_truthy_userId v then Throw SessionHeaderMissingUserId
              else Normal true
       end = (if lacks_truthy_userId v then Throw SessionHeaderMissingUserId
              else Normal true))).
    { destruct v; try (right; split; [discriminate|reflexivity]). left; reflexivity. }
    destruct Hcase as [->|[Hnull ->]].
    + split; [discriminate|]. split; [tauto|].
      split; [intros _; exists text; auto|reflexivity].
    + destruct (lacks_truthy_userId v).
      * split; [discriminate|]. split; [tauto|].
        split; [intros H; vm_compute in H; discriminate|].
        intros (text' & Hh' & Hp'). congruence.
      * split; [discriminate|]. split; [tauto|].
        split; [discriminate|].
        intros (text' & Hh' & Hp'). congruence.
Qed.

(** X3. What the session slot held before has no say: two requests with the
    same header get the same completion, and when the header parses they
    leave the gate with the same session, the parsed header. *)
Theorem X3_gate_ignores_prior_session (h : option JsStr) (s1 s2 : JsValue) :
  snd (authorizationChecker (mkRequest h s1))
  = snd (authorizationChecker (mkRequest h s2))
  /\ (forall text v,
        h = Some text -> JSON.parse text = Normal v ->
        session (fst (authorizationChecker (mkRequest h s1))) = v
        /\ session (fst (authorizationChecker (mkRequest h s2))) = v).
Proof.
  split.
  - destruct h as [text|].
    + destruct (JSON.parse text) as [v|e] eqn:Hp.
      * rewrite (@gate_parsed (mkRequest (Some text) s1) text v eq_refl Hp),
                (@gate_parsed (mkRequest (Some text) s2) text v eq_refl Hp).
        reflexivity.
      * assert (Hempty : text = [] \/ text <> [])
          by (destruct text; [left; reflexivity | right; discriminate]).
        destruct Hempty as [->|Hne]; [reflexivity|].
        rewrite (@gate_unparseable (mkRequest (Some text) s1) text e
                   eq_refl Hne Hp),
                (@gate_unparseable (mkRequest (Some text) s2) text e
                   eq_refl Hne Hp).
        reflexivity.
    + reflexivity.
  - intros text v Hh Hp.
    rewrite (@gate_parsed (mkRequest h s1) text v Hh Hp),
            (@gate_parsed (mkRequest h s2) text v Hh Hp).
    split; reflexivity.
Qed.

(** X3 on the header of the test and a slot that already claims a
    user. *)
Lemma X3_gate_ignores_prior_session_witness :
  session (fst (authorizationChecker
                  (mkRequest (Some (dq "{'noUserId':true}"))
                             (object_literal [(lit "userId", JsNumber (num 7))]))))
  = object_literal [(lit "noUserId", JsBool true)].
Proof.
  apply (proj2 (X3_gate_ignores_prior_session
                  (Some (dq "{'noUserId':true}"))
                  (object_literal [(lit "userId", JsNumber (num 7))])
                  JsUndefined)
               (dq "{'noUserId':true}")
               (object_literal [(lit "noUserId", JsBool true)])).
  - reflexivity.
  - vm_compute. reflexivity.
Defined.

(** What the gate throws. *)
Lemma gate_throws (request : Request) (failure : JsValue) :
  snd (authorizationChecker request) = Throw failure ->
  failure = SessionRequired \/ failure = SessionHeaderInvalid
  \/ failure = SessionHeaderMissingUserId
  \/ failure = TypeError (cannot_read (lit "userId") JsNull).
Proof.
  destruct (gate_cases request)
    as [[Ht E]|[(text & Hh & Hp & E)|(text & v & Hh & Hp & E)]];
    rewrite E; simpl snd.
  - intros H; inversion H; auto.
  - intros H; inversion H; auto.
  - destruct v; try (destruct (lacks_truthy_userId _));
      intros H; inversion H; auto.
Qed.

(* ===================================================================== *)
(** * The gate and the interceptor together *)
(* ===================================================================== *)

(** X4. Whatever the gate throws, once the logger call has returned the
    interceptor answers it in one of two ways: a gate failure gets status
    401, its message as code, an empty context, and is logged with warn; the
    TypeError of a null header gets status 500, code "TypeError", an empty
    context, and is logged with error. *)
Theorem X4_gate_failure_response
  (env : Env) (request : Request) (failure : JsValue) :
  snd (authorizationChecker request) = Throw failure ->
  snd (ErrorHandler.log_failure env failure
         (ne_status (normalized failure)) []) = Normal tt ->
  let t := fst (ErrorHandler.error env failure []) in
  (In failure [SessionRequired; SessionHeaderInvalid;
               SessionHeaderMissingUserId]
   /\ responses t
      = [ResponseStatus (JsNumber (num 401));
         ResponseJson (ErrorHandler.body (field failure (lit "message"))
                                         (JsNumber (num 401))
                                         (object_literal []))]
   /\ logged t = [Warn])
  \/ (failure = TypeError (cannot_read (lit "userId") JsNull)
      /\ responses t
         = [ResponseStatus (JsNumber (num 500));
            ResponseJson (ErrorHandler.body (JsString (lit "TypeError"))
                                            (JsNumber (num 500))
                                            (object_literal []))]
      /\ logged t = [Error]).
Proof.
  intros Hthrown Hlog t. subst t.
  destruct (@gate_throws request failure Hthrown) as [-> | [-> | [-> | ->]]].
  - left. split; [simpl; auto|].
    destruct (@error_responds env SessionRequired eq_refl Hlog) as [_ Hr].
    rewrite Hr, (@error_logged_returned env SessionRequired eq_refl Hlog).
    split; reflexivity.
  - left. split; [simpl; auto|].
    destruct (@error_responds env SessionHeaderInvalid eq_refl Hlog) as [_ Hr].
    rewrite Hr, (@error_logged_returned env SessionHeaderInvalid eq_refl Hlog).
    split; reflexivity.
  - left. split; [simpl; auto|].
    destruct (@error_responds env SessionHeaderMissingUserId eq_refl Hlog)
      as [_ Hr].
    rewrite Hr, (@error_logged_returned env SessionHeaderMissingUserId eq_refl Hlog).
    split; reflexivity.
  - right. split; [reflexivity|].
    destruct (@error_responds env (TypeError (cannot_read (lit "userId") JsNull))
                eq_refl Hlog) as [_ Hr].
    rewrite Hr, (@error_logged_returned env
                   (TypeError (cannot_read (lit "userId") JsNull)) eq_refl Hlog).
    split; reflexivity.
Qed.

(** X4 on the request without a header and on the header [null]. *)
Lemma X4_gate_failure_response_witness :
  logged (fst (ErrorHandler.error quiet_env SessionRequired [])) = [Warn]
  /\ logged (fst (ErrorHandler.error quiet_env
                    (TypeError (cannot_read (lit "userId") JsNull)) []))
     = [Error].
Proof.
  split.
  - destruct (@X4_gate_failure_response quiet_env (incoming None)
                SessionRequired eq_refl eq_refl) as [(_ & _ & H)|(H & _)].
    + exact H.
    + vm_compute in H. discriminate.
  - destruct (@X4_gate_failure_response quiet_env
                (incoming (Some (lit "null")))
                (TypeError (cannot_read (lit "userId") JsNull))
                eq_refl eq_refl) as [(H & _)|(_ & _ & H)].
    + vm_compute in H. repeat destruct H as [H|H]; try discriminate; contradiction.
    + exact H.
Defined.

(* ===================================================================== *)
(** * More on the interceptor *)
(* ===================================================================== *)

(** X5. The three values of a response are never falsy: whatever the failure
    declares, the status, the code and the context the interceptor computes
    are truthy (no 0, no empty string, no null or undefined reaches the
    body). *)
Theorem X5_response_values_truthy (failure st code ctx : JsValue) :
  ErrorHandler.status failure = Normal st ->
  ErrorHandler.code failure = Normal code ->
  ErrorHandler.context failure = Normal ctx ->
  truthy st = true /\ truthy code = true /\ truthy ctx = true.
Proof.
  intros Hs Hc Hx.
  pose proof (@status_returns failure st Hs) as Hn.
  rewrite (@status_normalized failure Hn) in Hs.
  rewrite (@code_normalized failure Hn) in Hc.
  rewrite (@context_normalized failure Hn) in Hx.
  inversion Hs; inversion Hc; inversion Hx; subst; clear Hs Hc Hx.
  unfold normalized, declared_status, specific_name, message_text,
    declared_detail; simpl.
  split; [|split].
  - destruct (truthy (field failure (lit "status"))) eqn:E1; [exact E1|].
    destruct (truthy (field failure (lit "httpCode"))) eqn:E2; [exact E2|].
    reflexivity.
  - destruct (truthy (field failure (lit "name"))) eqn:E1; simpl.
    + destruct (negb (generic_name (field failure (lit "name"))));
        [exact E1|].
      destruct (truthy (field failure (lit "message"))) eqn:E2; [exact E2|].
      reflexivity.
    + destruct (truthy (field failure (lit "message"))) eqn:E2; [exact E2|].
      reflexivity.
  - destruct (truthy (field failure (lit "context"))) eqn:E1; [exact E1|].
    destruct (truthy (field failure (lit "errors"))) eqn:E2; [exact E2|].
    reflexivity.
Qed.

(** X5 on a failure whose every field is there and falsy. *)
Lemma X5_response_values_truthy_witness :
  let failure :=
    object_literal [(lit "status", JsNumber (S754_zero false));
                    (lit "httpCode", JsNull);
                    (lit "name", JsString []);
                    (lit "message", JsString []);
                    (lit "context", JsBool false);
                    (lit "errors", JsNumber S754_nan)] in
  ErrorHandler.status failure = Normal (JsNumber (num 500))
  /\ ErrorHandler.code failure = Normal (JsString (lit "unspecified-error"))
  /\ ErrorHandler.context failure = Normal (object_literal [])
  /\ truthy (JsNumber (num 500)) = true
  /\ truthy (JsString (lit "unspecified-error")) = true
  /\ truthy (object_literal []) = true.
Proof.
  intros failure.
  split; [reflexivity|]. split; [reflexivity|]. split; [reflexivity|].
  apply (@X5_response_values_truthy failure); reflexivity.
Defined.

(** X6. One run of the method, on any value and in any environment, adds to
    the log and the response in one of three ways only: nothing, or one
    logger call, and then the method throws; or one logger call, then the
    status, then the call of response.json with a body whose status field is
    the status just set, and then the method completes as response.json did.
    There is no body without a status, no second logger call, and no response
    call after the logger call threw. *)
Theorem X6_trace_shape (env : Env) (failure : JsValue) (t : Trace) :
  let r := ErrorHandler.error env failure t in
  (exists x, snd r = Throw x
             /\ (fst r = t \/ exists sev args, fst r = t ++ [Log sev args]))
  \/ (exists sev args st code ctx,
        fst r = t ++ [Log sev args; ResponseStatus st;
                      ResponseJson (ErrorHandler.body code st ctx)]
        /\ snd r = response_json_result env st (ErrorHandler.body code st ctx)).
Proof.
  cbv zeta.
  destruct (nullish failure) eqn:Hn.
  - left. rewrite (@error_nullish env failure t Hn).
    eexists; split; [reflexivity|left; reflexivity].
  - rewrite (@error_run env failure t Hn). cbv zeta.
    rewrite log_failure_run.
    destruct (js_lt env (ne_status (normalized failure)) (num 500))
      as [[|]|x].
    + destruct (JSON_stringify env failure) as [[]|x].
      * destruct (log_warn (logger env) _) as [[]|x].
        -- right. do 5 eexists. simpl. rewrite <- app_assoc.
           split; reflexivity.
        -- left. exists x. split; [reflexivity|].
           right. do 2 eexists. reflexivity.
      * left. exists x. split; [reflexivity|left; reflexivity].
    + destruct (log_error (logger env) _) as [[]|x].
      * right. do 5 eexists. simpl. rewrite <- app_assoc.
        split; reflexivity.
      * left. exists x. split; [reflexivity|].
        right. do 2 eexists. reflexivity.
    + left. exists x. split; [reflexivity|left; reflexivity].
Qed.

(** X6 on the failure {status: 99}: all three calls are made, and the
    method completes as the response.json of Node does on that status. *)
Lemma X6_trace_shape_example :
  fst (ErrorHandler.error quiet_env
         (object_literal [(lit "status", JsNumber (num 99))]) [])
  = [Log Warn [Val (object_literal [(lit "status", JsNumber (num 99))]);
               Stringified (object_literal [(lit "status", JsNumber (num 99))])];
     ResponseStatus (JsNumber (num 99));
     ResponseJson (ErrorHandler.body (JsString (lit "unspecified-error"))
                                     (JsNumber (num 99)) (object_literal []))]
  /\ snd (ErrorHandler.error quiet_env
            (object_literal [(lit "status", JsNumber (num 99))]) [])
     = response_json_result quiet_env (JsNumber (num 99))
         (ErrorHandler.body (JsString (lit "unspecified-error"))
                            (JsNumber (num 99)) (object_literal []))
  /\ exists thrown,
       response_json_result quiet_env (JsNumber (num 99))
         (ErrorHandler.body (JsString (lit "unspecified-error"))
                            (JsNumber (num 99)) (object_literal []))
       = Throw thrown.
Proof.
  repeat split; try reflexivity.
  eexists. reflexivity.
Qed.

(* ===================================================================== *)
(** * More on the routing-controller options *)
(* ===================================================================== *)

Lemma set_prop_fresh (V : Type) (k : JsStr) (v : V) (l : list (JsStr * V)) :
  ~ In k (map fst l) -> set_prop k v l = l ++ [(k, v)].
Proof.
  induction l as [|[k1 v1] l IH]; simpl; intros H; [reflexivity|].
  destruct (str_eqb k k1) eqn:E.
  - apply str_eqb_eq in E. subst. tauto.
  - rewrite IH by tauto. reflexivity.
Qed.

Lemma set_prop_same (V : Type) (k : JsStr) (v : V) (l : list (JsStr * V)) :
  lookup k l = Some v -> set_prop k v l = l.
Proof.
  induction l as [|[k1 v1] l IH]; simpl; [discriminate|].
  destruct (str_eqb k k1) eqn:E.
  - intros H; inversion H; reflexivity.
  - intros H. rewrite (IH H). reflexivity.
Qed.

Lemma set_prop_inside (V : Type) (k : JsStr) (v v0 : V)
    (before after : list (JsStr * V)) :
  ~ In k (map fst before) ->
  set_prop k v (before ++ (k, v0) :: after) = before ++ (k, v) :: after.
Proof.
  induction before as [|[k1 v1] before IH]; simpl; intros H.
  - rewrite str_eqb_refl. reflexivity.
  - destruct (str_eqb k k1) eqn:E.
    + apply str_eqb_eq in E. subst. tauto.
    + rewrite IH by tauto. reflexivity.
Qed.

Lemma lookup_none_absent (V : Type) (k : JsStr) (l : list (JsStr * V)) :
  lookup k l = None -> ~ In k (map fst l).
Proof.
  induction l as [|[k1 v1] l IH]; simpl; [tauto|].
  destruct (str_eqb k k1) eqn:E; [discriminate|].
  intros H [<-|Hin]; [rewrite str_eqb_refl in E; discriminate|].
  exact (IH H Hin).
Qed.

(** The keys after an assignment: the keys before, and the new key last
    when it is new. *)
Lemma keys_set_prop (V : Type) (k : JsStr) (v : V) (l : list (JsStr * V)) :
  map fst (set_prop k v l)
  = map fst l ++ match lookup k l with
                 | Some _ => []
                 | None => [k]
                 end.
Proof.
  induction l as [|[k1 v1] l IH]; simpl; [reflexivity|].
  destruct (str_eqb k k1) eqn:E; simpl.
  - rewrite app_nil_r. reflexivity.
  - rewrite IH. reflexivity.
Qed.

Lemma unique_set_prop (k : JsStr) (v : OptionValue) (l : Options) :
  unique_keys l -> unique_keys (set_prop k v l).
Proof.
  unfold unique_keys. intros U. rewrite keys_set_prop.
  destruct (lookup k l) eqn:E; [rewrite app_nil_r; exact U|].
  apply NoDup_app; [exact U|repeat constructor; intros []|].
  intros a Ha [<-|[]]. exact (@lookup_none_absent _ k l E Ha).
Qed.

Lemma unique_assign (source target : Options) :
  unique_keys target -> unique_keys (assign target source).
Proof.
  unfold assign. revert target.
  induction source as [|[k v] source IH]; intros target U; simpl; [exact U|].
  apply IH, unique_set_prop, U.
Qed.

(** Assignments never move a key that is there: the keys of the target
    stay in front. *)
Lemma keys_assign (source target : Options) :
  exists extra, map fst (assign target source) = map fst target ++ extra.
Proof.
  unfold assign. revert target.
  induction source as [|[k v] source IH]; intros target; simpl.
  - exists []. rewrite app_nil_r. reflexivity.
  - destruct (IH (set_prop k v target)) as (extra & E).
    rewrite E, keys_set_prop, <- app_assoc. eexists; reflexivity.
Qed.

(** Assigning new, pairwise different keys appends them in order. *)
Lemma assign_fresh (post done : Options) :
  unique_keys (done ++ post) -> assign done post = done ++ post.
Proof.
  unfold assign, unique_keys. revert done.
  induction post as [|[k v] post IH]; intros done U; simpl.
  - rewrite app_nil_r. reflexivity.
  - assert (Hnot : ~ In k (map fst done)).
    { rewrite map_app in U. simpl in U.
      apply NoDup_remove_2 in U. intros Hin. apply U.
      apply in_or_app. left. exact Hin. }
    rewrite (@set_prop_fresh _ k v done Hnot).
    rewrite IH; rewrite <- app_assoc; [reflexivity|exact U].
Qed.

(** Assigning, on a target, a source whose first keys are those of the
    target and whose keys are pairwise different, gives the source. *)
Lemma assign_over_prefix (pre : Options) :
  forall (target done post : Options),
    map fst target = map fst pre ->
    unique_keys (done ++ pre ++ post) ->
    assign (done ++ target) (pre ++ post) = done ++ pre ++ post.
Proof.
  induction pre as [|[k v] pre IH]; intros target done post Hk U.
  - destruct target; [|discriminate]. rewrite app_nil_r. simpl.
    apply assign_fresh. exact U.
  - destruct target as [|[k0 v0] target]; [discriminate|].
    simpl in Hk. inversion Hk as [[Hk0 Hk']]. subst k0.
    assert (Hnot : ~ In k (map fst done)).
    { unfold unique_keys in U. rewrite map_app in U. simpl in U.
      apply NoDup_remove_2 in U. intros Hin. apply U.
      apply in_or_app. left. exact Hin. }
    change (assign (done ++ (k, v0) :: target) (((k, v) :: pre) ++ post))
      with (assign (set_prop k v (done ++ (k, v0) :: target)) (pre ++ post)).
    rewrite (@set_prop_inside _ k v v0 done target Hnot).
    change (done ++ (k, v) :: target) with (done ++ [(k, v)] ++ target).
    rewrite app_assoc.
    rewrite (IH target (done ++ [(k, v)]) post Hk').
    + rewrite <- app_assoc. reflexivity.
    + rewrite <- app_assoc. exact U.
Qed.

(** The options built by lines 77-97 have pairwise different keys and
    begin with the three default keys. *)
Lemma routingController_shape (path : JsStr) (supplied : option Options) :
  unique_keys (routingController path supplied)
  /\ exists pre post,
       routingController path supplied = pre ++ post
       /\ map fst pre = map fst (defaultRoutingControllerOptions path).
Proof.
  set (D := defaultRoutingControllerOptions path).
  assert (UD : unique_keys D).
  { unfold unique_keys. simpl. repeat constructor; simpl; intuition discriminate. }
  set (A := Object_assign [] [Some D; supplied]).
  assert (HA : unique_keys A /\ exists extra, map fst A = map fst D ++ extra).
  { subst A. unfold Object_assign. destruct supplied as [o|]; cbn [fold_left].
    - split; [apply unique_assign; exact UD|]. apply keys_assign.
    - split; [exact UD|]. exists []. rewrite app_nil_r. reflexivity. }
  destruct HA as [UA (extra & KA)].
  unfold routingController. fold D. fold A. cbv zeta.
  split; [repeat apply unique_set_prop; exact UA|].
  set (rc := set_prop _ _ (set_prop _ _ (set_prop _ _ A))).
  assert (K : exists extra', map fst rc = map fst D ++ extra').
  { subst rc. rewrite !keys_set_prop, KA, <- !app_assoc. eexists; reflexivity. }
  destruct K as (extra' & K).
  exists (firstn 3 rc), (skipn 3 rc).
  split; [symmetry; apply firstn_skipn|].
  rewrite <- firstn_map, K. reflexivity.
Qed.

(** X7. Handing the options that lines 77-97 produced back to them produces
    them again: a second start with the options object the first start left
    behind ends with the same routing-controller options, in the same
    order. *)
Theorem X7_routing_controller_idempotent (path : JsStr) (supplied : option Options) :
  routingController path (Some (routingController path supplied))
  = routingController path supplied.
Proof.
  destruct (routingController_shape path supplied) as [U (pre & post & E & K)].
  set (rc := routingController path supplied) in *.
  assert (Hmerge :
    Object_assign [] [Some (defaultRoutingControllerOptions path); Some rc] = rc).
  { unfold Object_assign. cbn [fold_left]. rewrite assign_defaults.
    rewrite E in U |- *.
    exact (@assign_over_prefix pre (defaultRoutingControllerOptions path)
             [] post (eq_sym K) U). }
  unfold routingController at 1. rewrite Hmerge. cbv zeta.
  assert (L1 : lookup (lit "interceptors") rc
               = Some (Classes [SessionLoaderInterceptor; ErrorHandler])).
  { subst rc. unfold routingController. cbv zeta.
    rewrite !lookup_set_prop. reflexivity. }
  assert (L2 : lookup (lit "authorizationChecker") rc
               = Some (Checker authorizationChecker)).
  { subst rc. unfold routingController. cbv zeta.
    rewrite !lookup_set_prop. reflexivity. }
  assert (L3 : lookup (lit "validation") rc
               = Some (Data (object_literal
                               [(lit "whitelist", JsBool true);
                                (lit "forbidNonWhitelisted", JsBool true)]))).
  { subst rc. unfold routingController. cbv zeta.
    rewrite !lookup_set_prop. reflexivity. }
  rewrite (@set_prop_same _ _ _ rc L1), (@set_prop_same _ _ _ rc L2),
    (@set_prop_same _ _ _ rc L3).
  reflexivity.
Qed.

(* ===================================================================== *)
(** * Start-up options *)
(* ===================================================================== *)

(** X8. The port is never falsy: the caller's port when that is truthy;
    otherwise (port absent, 0, empty, null) the PORT of the environment when
    it is a non-empty string; otherwise 5000.  A caller cannot ask for
    port 0. *)
Theorem X8_port_never_falsy (supplied : JsValue) (PORT : option JsStr) :
  truthy (http_port supplied PORT) = true
  /\ (truthy supplied = true -> http_port supplied PORT = supplied)
  /\ (truthy supplied = false ->
      http_port supplied PORT
      = match PORT with
        | Some (c :: s) => JsString (c :: s)
        | _ => JsNumber (num 5000)
        end).
Proof.
  unfold http_port, js_or, env_value.
  destruct (truthy supplied) eqn:E.
  - split; [exact E|]. split; [reflexivity|discriminate].
  - destruct PORT as [[|c s]|]; simpl;
      (split; [reflexivity | split; [discriminate | reflexivity]]).
Qed.

(** X8 on a caller that asks for port 0 with no PORT set, and with
    PORT=8080. *)
Lemma X8_port_never_falsy_witness :
  http_port (JsNumber (S754_zero false)) None = JsNumber (num 5000)
  /\ http_port (JsNumber (S754_zero false)) (Some (lit "8080"))
     = JsString (lit "8080")
  /\ http_port (JsNumber (num 6001)) (Some (lit "8080")) = JsNumber (num 6001).
Proof.
  split; [|split].
  - apply (proj2 (proj2 (X8_port_never_falsy (JsNumber (S754_zero false)) None))).
    reflexivity.
  - apply (proj2 (proj2 (X8_port_never_falsy (JsNumber (S754_zero false))
                           (Some (lit "8080"))))).
    reflexivity.
  - apply (proj1 (proj2 (X8_port_never_falsy (JsNumber (num 6001))
                           (Some (lit "8080"))))).
    reflexivity.
Defined.

(** X9. Request logging is switched off exactly by a logLevel that is
    defined and falsy (false, null, 0, the empty string); a logLevel that is
    absent installs morgan with the default format, and any other value or
    function installs morgan with it. *)
Theorem X9_request_logging_switch (supplied : LogLevel) :
  (morgan_installed supplied = false
   <-> exists v, supplied = LevelValue v /\ v <> JsUndefined /\ truthy v = false)
  /\ (is_undefined supplied = true -> http_logLevel supplied = DefaultFormat)
  /\ (is_undefined supplied = false -> http_logLevel supplied = supplied).
Proof.
  unfold morgan_installed, http_logLevel.
  split; [|split].
  - destruct supplied as [v| |]; simpl.
    + destruct v; simpl; split;
        try discriminate;
        try (intros (v' & E & Hu & Ht); inversion E; subst;
             simpl in Ht; congruence);
        intros H; eexists; repeat split; try reflexivity; try discriminate;
        exact H.
    + split; [discriminate|]. intros (v & E & _); discriminate.
    + split; [discriminate|]. intros (v & E & _); discriminate.
  - intros ->. reflexivity.
  - intros ->. reflexivity.
Qed.

(** X9 on [logLevel: false], on no logLevel and on [logLevel: 'dev']. *)
Lemma X9_request_logging_switch_witness :
  morgan_installed (LevelValue (JsBool false)) = false
  /\ http_logLevel (LevelValue JsUndefined) = DefaultFormat
  /\ http_logLevel (LevelValue (JsString (lit "dev")))
     = LevelValue (JsString (lit "dev")).
Proof.
  split; [|split].
  - apply (proj1 (X9_request_logging_switch (LevelValue (JsBool false)))).
    exists (JsBool false). repeat split. discriminate.
  - apply (proj1 (proj2 (X9_request_logging_switch (LevelValue JsUndefined)))).
    reflexivity.
  - apply (proj2 (proj2 (X9_request_logging_switch
                           (LevelValue (JsString (lit "dev")))))).
    reflexivity.
Defined.

(* ===================================================================== *)
(** * The log stream *)
(* ===================================================================== *)

Lemma remove_first_absent (c : N) (s : JsStr) :
  ~ In c s -> remove_first c s = s.
Proof.
  induction s as [|x s IH]; simpl; intros H; [reflexivity|].
  destruct (N.eqb x c) eqn:E.
  - apply N.eqb_eq in E. tauto.
  - rewrite IH by tauto. reflexivity.
Qed.

Lemma remove_first_app (c : N) (a b : JsStr) :
  ~ In c a -> remove_first c (a ++ c :: b) = a ++ b.
Proof.
  induction a as [|x a IH]; simpl; intros H.
  - rewrite N.eqb_refl. reflexivity.
  - destruct (N.eqb x c) eqn:E.
    + apply N.eqb_eq in E. tauto.
    + rewrite IH by tauto. reflexivity.
Qed.

Lemma strip_newline_line (line rest : JsStr) :
  no_newline line -> strip_newline (line ++ 10%N :: rest) = line ++ rest.
Proof.
  intros H. unfold strip_newline.
  assert (T : truthy (JsString (line ++ 10%N :: rest)) = true)
    by (destruct line; reflexivity).
  rewrite T. apply remove_first_app. exact H.
Qed.

Lemma strip_newline_none (line : JsStr) :
  no_newline line -> strip_newline line = line.
Proof.
  intros H. unfold strip_newline.
  destruct (truthy (JsString line)); [|reflexivity].
  apply remove_first_absent. exact H.
Qed.

(** The text branch of [write]. *)
Lemma write_text_run (pf : Platform) (data : JsValue) (log : OptionsLog)
    (message : JsStr) (t : InfoLog) :
  nullish data = false ->
  truthy (field data (lit "formatLogInJSON")) = false ->
  write pf data log message t
  = (t ++ [(strip_newline message, NoMeta)], log (strip_newline message) NoMeta).
Proof.
  intros Hn Hf. unfold write, bind, lift.
  rewrite (@get_field data (lit "formatLogInJSON") Hn), Hf.
  reflexivity.
Qed.


(** X10. With formatLogInJSON off, [write] makes one call of
    options.log.info, with the message less its first line feed and nothing
    else: a line that morgan hands over with its line feed at the end is
    logged as the line itself, and a line feed further on in the message
    stays. *)
Theorem X10_write_text_mode (pf : Platform) (data : JsValue) (log : OptionsLog)
    (line rest : JsStr) (t : InfoLog) :
  nullish data = false ->
  truthy (field data (lit "formatLogInJSON")) = false ->
  no_newline line ->
  write pf data log (line ++ 10%N :: rest) t
  = (t ++ [(line ++ rest, NoMeta)], log (line ++ rest) NoMeta)
  /\ write pf data log (line ++ [10%N]) t
     = (t ++ [(line, NoMeta)], log line NoMeta)
  /\ write pf data log line t = (t ++ [(line, NoMeta)], log line NoMeta).
Proof.
  intros Hn Hf Hl.
  rewrite !(@write_text_run pf data log _ t Hn Hf).
  rewrite !(strip_newline_line _ Hl), (strip_newline_none Hl), app_nil_r.
  repeat split; reflexivity.
Qed.

(** X10 on a line of the text format, and on a message of two lines. *)
Lemma X10_write_text_mode_witness :
  write sample_platform (routing_data false) quiet_log
        (lit "GET /me 200 1.2 ms -  12" ++ [10%N]) []
  = ([(lit "GET /me 200 1.2 ms -  12", NoMeta)], Normal tt)
  /\ write sample_platform (routing_data false) quiet_log
           (lit "one" ++ 10%N :: lit "two" ++ [10%N]) []
     = ([(lit "one" ++ lit "two" ++ [10%N], NoMeta)], Normal tt).
Proof.
  split.
  - apply (proj1 (proj2 (@X10_write_text_mode sample_platform
                           (routing_data false) quiet_log
                           (lit "GET /me 200 1.2 ms -  12") [] []
                           eq_refl eq_refl
                           ltac:(unfold no_newline; simpl; intuition discriminate)))).
  - apply (proj1 (@X10_write_text_mode sample_platform
                    (routing_data false) quiet_log
                    (lit "one") (lit "two" ++ [10%N]) []
                    eq_refl eq_refl
                    ltac:(unfold no_newline; simpl; intuition discriminate))).
Defined.

(** The JSON branch of [write]. *)
Lemma write_json_run (pf : Platform) (data : JsValue) (log : OptionsLog)
    (message : JsStr) (t : InfoLog) :
  nullish data = false ->
  truthy (field data (lit "formatLogInJSON")) = true ->
  write pf data log message t
  = match JSON.parse message with
    | Throw e => written_fallback log message e t
    | Normal v =>
        match get v (lit "path") with
        | Throw e => written_fallback log message e t
        | Normal path =>
            match ToString pf path with
            | Throw e => written_fallback log message e t
            | Normal text =>
                match log (lit "api call " ++ text) (Meta v) with
                | Normal _ =>
                    (t ++ [(lit "api call " ++ text, Meta v)], Normal tt)
                | Throw e =>
                    written_fallback log message e
                      (t ++ [(lit "api call " ++ text, Meta v)])
                end
            end
        end
    end.
Proof.
  intros Hn Hf.
  unfold write, bind, lift, try_catch, call_info, modify, written_fallback.
  rewrite (@get_field data (lit "formatLogInJSON") Hn), Hf.
  destruct (JSON.parse message) as [v|e]; [|reflexivity].
  destruct (get v (lit "path")) as [path|e]; [|reflexivity].
  destruct (ToString pf path) as [text|e]; [|reflexivity].
  destruct (log (lit "api call " ++ text) (Meta v)) as [[]|e]; reflexivity.
Qed.

(** X11. With formatLogInJSON on, nothing that goes wrong inside the try
    block gets out of [write]: whatever JSON.parse, the read of path, the
    conversion of path to a string or the first logger call throw, [write]
    returns when the logger call of the catch block returns.  It makes one
    or two logger calls. *)
Theorem X11_write_contains_failures (pf : Platform) (data : JsValue)
    (log : OptionsLog) (message : JsStr) (t : InfoLog) :
  nullish data = false ->
  truthy (field data (lit "formatLogInJSON")) = true ->
  (forall e, log (strip_newline message) (ErrString e) = Normal tt) ->
  snd (write pf data log message t) = Normal tt
  /\ exists calls,
       fst (write pf data log message t) = t ++ calls
       /\ 1 <= List.length calls <= 2.
Proof.
  intros Hn Hf Hlog.
  rewrite (@write_json_run pf data log message t Hn Hf).
  unfold written_fallback.
  destruct (JSON.parse message) as [v|e];
    [destruct (get v (lit "path")) as [path|e];
     [destruct (ToString pf path) as [text|e];
      [destruct (log (lit "api call " ++ text) (Meta v)) as [[]|e]|]|]|];
    simpl; rewrite ?Hlog; (split; [reflexivity|]).
  - eexists; split; [reflexivity|simpl; lia].
  - rewrite <- app_assoc. eexists; split; [reflexivity|simpl; lia].
  - eexists; split; [reflexivity|simpl; lia].
  - eexists; split; [reflexivity|simpl; lia].
  - eexists; split; [reflexivity|simpl; lia].
Qed.

(** X11 on a message that is no JSON text, with a logger that returns. *)
Lemma X11_write_contains_failures_witness :
  snd (write sample_platform (routing_data true) quiet_log
             (lit "GET /me 200" ++ [10%N]) []) = Normal tt.
Proof.
  apply (@X11_write_contains_failures sample_platform (routing_data true)
           quiet_log (lit "GET /me 200" ++ [10%N]) []);
    reflexivity.
Defined.

(** X12. With formatLogInJSON on, a message that is no JSON text, and a
    message that parses to null, both end in the catch block: one logger
    call with the message less its first line feed and the caught error,
    the SyntaxError of JSON.parse or the TypeError of the read of path. *)
Theorem X12_write_fallback (pf : Platform) (data : JsValue) (log : OptionsLog)
    (message : JsStr) (t : InfoLog) :
  nullish data = false ->
  truthy (field data (lit "formatLogInJSON")) = true ->
  (forall e, JSON.parse message = Throw e ->
     write pf data log message t
     = (t ++ [(strip_newline message, ErrString JSON.SyntaxError)],
        log (strip_newline message) (ErrString JSON.SyntaxError)))
  /\ (JSON.parse message = Normal JsNull ->
      write pf data log message t
      = (t ++ [(strip_newline message,
                ErrString (TypeError (cannot_read (lit "path") JsNull)))],
         log (strip_newline message)
             (ErrString (TypeError (cannot_read (lit "path") JsNull))))).
Proof.
  intros Hn Hf.
  rewrite (@write_json_run pf data log message t Hn Hf).
  split.
  - intros e Hp. rewrite Hp, (@parse_throws message e Hp). reflexivity.
  - intros Hp. rewrite Hp. reflexivity.
Qed.

(** X12 on a line of the text format and on the message [null]. *)
Lemma X12_write_fallback_witness :
  write sample_platform (routing_data true) quiet_log
        (lit "GET /me 200" ++ [10%N]) []
  = ([(lit "GET /me 200", ErrString JSON.SyntaxError)], Normal tt)
  /\ write sample_platform (routing_data true) quiet_log
           (lit "null" ++ [10%N]) []
     = ([(lit "null",
          ErrString (TypeError (cannot_read (lit "path") JsNull)))],
        Normal tt).
Proof.
  split.
  - apply (proj1 (@X12_write_fallback sample_platform (routing_data true)
                    quiet_log (lit "GET /me 200" ++ [10%N]) []
                    eq_refl eq_refl) JSON.SyntaxError).
    reflexivity.
  - apply (proj2 (@X12_write_fallback sample_platform (routing_data true)
                    quiet_log (lit "null" ++ [10%N]) [] eq_refl eq_refl)).
    reflexivity.
Defined.

(** X13. With formatLogInJSON on, a message that parses to a value other
    than null whose path converts to a string is logged as "api call "
    followed by that string, with the parsed value beside it.  When that
    logger call returns, it is the only one; when it throws, the catch block
    logs the same message a second time, as raw text with what the logger
    threw. *)
Theorem X13_write_parsed (pf : Platform) (data : JsValue) (log : OptionsLog)
    (message : JsStr) (t : InfoLog) (v : JsValue) (text : JsStr) :
  nullish data = false ->
  truthy (field data (lit "formatLogInJSON")) = true ->
  JSON.parse message = Normal v ->
  v <> JsNull ->
  ToString pf (field v (lit "path")) = Normal text ->
  let first := (lit "api call " ++ text, Meta v) in
  (log (fst first) (snd first) = Normal tt ->
   write pf data log message t = (t ++ [first], Normal tt))
  /\ (forall e, log (fst first) (snd first) = Throw e ->
        write pf data log message t
        = (t ++ [first; (strip_newline message, ErrString e)],
           log (strip_newline message) (ErrString e))).
Proof.
  intros Hn Hf Hp Hnull Ht first.
  rewrite (@write_json_run pf data log message t Hn Hf), Hp.
  assert (Hv : nullish v = false).
  { pose proof (@parse_defined message v Hp). destruct v; simpl; congruence. }
  rewrite (@get_field v (lit "path") Hv), Ht.
  subst first. cbn [fst snd].
  split.
  - intros H. rewrite H. reflexivity.
  - intros e H. rewrite H. unfold written_fallback.
    rewrite <- app_assoc. reflexivity.
Qed.

(** X13 on a line of the JSON format, with a logger that returns and with
    one that throws. *)
Lemma X13_write_parsed_witness :
  let parsed := object_literal [(lit "path", JsString (lit "/me"));
                                (lit "status", JsString (lit "200"))] in
  write sample_platform (routing_data true) quiet_log
        (dq "{'path':'/me','status':'200'}" ++ [10%N]) []
  = ([(lit "api call /me", Meta parsed)], Normal tt)
  /\ write sample_platform (routing_data true) failing_log
           (dq "{'path':'/me','status':'200'}" ++ [10%N]) []
     = ([(lit "api call /me", Meta parsed);
         (dq "{'path':'/me','status':'200'}",
          ErrString (JsString (lit "log transport down")))],
        Throw (JsString (lit "log transport down"))).
Proof.
  intros parsed. split.
  - apply (proj1 (@X13_write_parsed sample_platform (routing_data true)
                    quiet_log (dq "{'path':'/me','status':'200'}" ++ [10%N])
                    [] parsed (lit "/me") eq_refl eq_refl eq_refl
                    ltac:(discriminate) eq_refl)).
    reflexivity.
  - apply (proj2 (@X13_write_parsed sample_platform (routing_data true)
                    failing_log (dq "{'path':'/me','status':'200'}" ++ [10%N])
                    [] parsed (lit "/me") eq_refl eq_refl eq_refl
                    ltac:(discriminate) eq_refl)
             (JsString (lit "log transport down"))).
    reflexivity.
Defined.

(* ===================================================================== *)
(** * Listening *)
(* ===================================================================== *)

Lemma strict_neq_false (v : JsValue) (s : JsStr) :
  strict_neq_string v s = false -> v = JsString s.
Proof.
  destruct v; simpl; try discriminate.
  intros H. apply negb_false_iff, str_eqb_eq in H. congruence.
Qed.

Lemma strict_eq_true (v : JsValue) (s : JsStr) :
  strict_eq_string v s = true -> v = JsString s.
Proof.
  unfold strict_eq_string. intros H. apply negb_true_iff in H.
  apply strict_neq_false. exact H.
Qed.

Lemma strict_neq_true (v : JsValue) (s : JsStr) :
  v <> JsString s -> strict_neq_string v s = true.
Proof.
  destruct v; simpl; try reflexivity.
  intros H. apply negb_true_iff, str_eqb_neq. congruence.
Qed.

Lemma strict_eq_false (v : JsValue) (s : JsStr) :
  v <> JsString s -> strict_eq_string v s = false.
Proof.
  intros H. unfold strict_eq_string. rewrite (@strict_neq_true v s H).
  reflexivity.
Qed.

Lemma analyzeError_new_Error (pf : Platform) (port : JsValue) (message : JsStr) :
  analyzeError pf port (new_Error message) = Normal (new_Error message).
Proof. reflexivity. Qed.

(** [analyzeError] on an error whose properties can be read. *)
Lemma analyzeError_run (pf : Platform) (port error : JsValue) :
  nullish error = false ->
  analyzeError pf port error
  = if strict_neq_string (field error (lit "syscall")) (lit "listen")
    then Normal error
    else if strict_eq_string (field error (lit "code")) (lit "EACCES")
    then let! p := ToString pf port in
         Normal (new_Error (lit "Port " ++ p
                              ++ lit " requires elevated privileges"))
    else if strict_eq_string (field error (lit "code")) (lit "EADDRINUSE")
    then let! p := ToString pf port in
         Normal (new_Error (lit "Port " ++ p ++ lit " is already in use"))
    else Normal error.
Proof.
  intros Hn. unfold analyzeError.
  rewrite (@get_field error (lit "syscall") Hn). simpl.
  destruct (strict_neq_string (field error (lit "syscall")) (lit "listen"));
    [reflexivity|].
  rewrite (@get_field error (lit "code") Hn). reflexivity.
Qed.

(** X14. On an error whose properties can be read, [analyzeError] returns a
    new Error with the message "Port <port> requires elevated privileges"
    when the error's syscall is 'listen' and its code is 'EACCES', a new
    Error with the message "Port <port> is already in use" when the syscall
    is 'listen' and the code is 'EADDRINUSE' (<port> being the text of
    options.http.port; what its conversion throws goes through), and its
    argument unchanged in every other case.  Analysing a result again
    returns it unchanged. *)
Theorem X14_analyzeError_cases (pf : Platform) (port error : JsValue) :
  nullish error = false ->
  let syscall := field error (lit "syscall") in
  let code := field error (lit "code") in
  (syscall = JsString (lit "listen") -> code = JsString (lit "EACCES") ->
   analyzeError pf port error
   = let! p := ToString pf port in
     Normal (new_Error (lit "Port " ++ p
                          ++ lit " requires elevated privileges")))
  /\ (syscall = JsString (lit "listen") ->
      code = JsString (lit "EADDRINUSE") ->
      analyzeError pf port error
      = let! p := ToString pf port in
        Normal (new_Error (lit "Port " ++ p ++ lit " is already in use")))
  /\ (syscall <> JsString (lit "listen") ->
      analyzeError pf port error = Normal error)
  /\ (code <> JsString (lit "EACCES") ->
      code <> JsString (lit "EADDRINUSE") ->
      analyzeError pf port error = Normal error)
  /\ (forall result,
        analyzeError pf port error = Normal result ->
        analyzeError pf port result = Normal result).
Proof.
  intros Hn syscall code. subst syscall code.
  rewrite (@analyzeError_run pf port error Hn).
  split; [|split; [|split; [|split]]].
  - intros -> ->. reflexivity.
  - intros -> ->. reflexivity.
  - intros H. rewrite (@strict_neq_true _ _ H). reflexivity.
  - intros H1 H2.
    rewrite (@strict_eq_false _ _ H1), (@strict_eq_false _ _ H2).
    destruct (strict_neq_string _ _); reflexivity.
  - intros result.
    destruct (strict_neq_string (field error (lit "syscall")) (lit "listen"))
      eqn:Es.
    + intros H; inversion H; subst result.
      rewrite (@analyzeError_run pf port error Hn), Es. reflexivity.
    + destruct (strict_eq_string (field error (lit "code")) (lit "EACCES"))
        eqn:E1.
      * destruct (ToString pf port) as [p|x]; simpl; [|discriminate].
        intros H; inversion H. apply analyzeError_new_Error.
      * destruct (strict_eq_string (field error (lit "code"))
                    (lit "EADDRINUSE")) eqn:E2.
        -- destruct (ToString pf port) as [p|x]; simpl; [|discriminate].
           intros H; inversion H. apply analyzeError_new_Error.
        -- intros H; inversion H; subst result.
           rewrite (@analyzeError_run pf port error Hn), Es, E1, E2.
           reflexivity.
Qed.

(** X14 on the two listen errors with the default port, on an error of
    another system call, and on a result analysed again. *)
Lemma X14_analyzeError_cases_witness :
  analyzeError sample_platform (JsNumber (num 5000))
               (listen_error (lit "EACCES"))
  = Normal (new_Error (lit "Port 5000 requires elevated privileges"))
  /\ analyzeError sample_platform (JsNumber (num 5000))
                  (listen_error (lit "EADDRINUSE"))
     = Normal (new_Error (lit "Port 5000 is already in use"))
  /\ analyzeError sample_platform (JsNumber (num 5000))
                  (JsObject [(lit "syscall", JsString (lit "connect"));
                             (lit "code", JsString (lit "EADDRINUSE"))]
                            Error_prototype)
     = Normal (JsObject [(lit "syscall", JsString (lit "connect"));
                         (lit "code", JsString (lit "EADDRINUSE"))]
                        Error_prototype)
  /\ analyzeError sample_platform (JsNumber (num 5000))
                  (new_Error (lit "Port 5000 is already in use"))
     = Normal (new_Error (lit "Port 5000 is already in use")).
Proof.
  split; [|split; [|split]].
  - apply (proj1 (@X14_analyzeError_cases sample_platform (JsNumber (num 5000))
                    (listen_error (lit "EACCES")) eq_refl));
      reflexivity.
  - apply (proj1 (proj2 (@X14_analyzeError_cases sample_platform
                           (JsNumber (num 5000))
                           (listen_error (lit "EADDRINUSE")) eq_refl)));
      reflexivity.
  - apply (proj1 (proj2 (proj2 (@X14_analyzeError_cases sample_platform
                                  (JsNumber (num 5000))
                                  (JsObject
                                     [(lit "syscall", JsString (lit "connect"));
                                      (lit "code", JsString (lit "EADDRINUSE"))]
                                     Error_prototype) eq_refl)))).
    discriminate.
  - apply (proj2 (proj2 (proj2 (proj2
             (@X14_analyzeError_cases sample_platform (JsNumber (num 5000))
                (listen_error (lit "EADDRINUSE")) eq_refl))))).
    reflexivity.
Defined.

(** A promise that is settled stays as it is, whatever the server emits
    next. *)
Lemma on_events_settled (pf : Platform) (port : JsValue) (log : OptionsLog)
    (events : list ServerEvent) :
  forall (p p' : PromiseState) (t t' : InfoLog),
    p <> Pending ->
    on_events pf port log events p t = (t', Normal p') -> p' = p.
Proof.
  induction events as [|ev events IH]; intros p p' t t' Hp; simpl.
  - unfold ret. intros H; inversion H; reflexivity.
  - unfold bind.
    destruct (on_event pf port log ev p t) as [t1 [p1|x]] eqn:E;
      [|discriminate].
    assert (p1 = p).
    { destruct ev as [error|]; simpl in E; unfold bind, lift, ret in E.
      - destruct (analyzeError pf port error); inversion E.
        destruct p; [congruence|reflexivity|reflexivity].
      - destruct (onListening pf port log t) as [t2 [[]|x]]; inversion E.
        destruct p; [congruence|reflexivity|reflexivity]. }
    subst p1. apply IH. exact Hp.
Qed.

(** A run that starts settled ends in that state, or with what a handler
    threw. *)
Lemma on_events_ends (pf : Platform) (port : JsValue) (log : OptionsLog)
    (events : list ServerEvent) (p : PromiseState) (t : InfoLog) :
  p <> Pending ->
  snd (on_events pf port log events p t) = Normal p
  \/ exists x, snd (on_events pf port log events p t) = Throw x.
Proof.
  intros Hp.
  destruct (on_events pf port log events p t) as [t' [p'|x]] eqn:E.
  - left. simpl. rewrite (@on_events_settled pf port log events p p' t t' Hp E).
    reflexivity.
  - right. exists x. reflexivity.
Qed.

(** X15. The first event decides how the promise of [listen] settles.  With
    no event it stays pending.  When the server first emits 'listening',
    onListening logs first: if that throws, resolve() is not reached and
    the handler throws; if it returns, the promise is fulfilled.  When the
    server first emits 'error', the promise is rejected with the analysed
    error (and the handler throws when the analysis throws).  Once the
    promise is settled no later event changes it: the run ends in that
    state, or with what a later handler throws.  What server.listen itself
    throws rejects the promise as it is, not analysed. *)
Theorem X15_first_event_decides (pf : Platform) (port : JsValue)
    (log : OptionsLog) (events : list ServerEvent) (t : InfoLog) :
  (forall e, listen pf port log (Throw e) events t = (t, Normal (Rejected e)))
  /\ let r := listen pf port log (Normal tt) events t in
     match events with
     | [] => r = (t, Normal Pending)
     | EvListening :: rest =>
         match onListening pf port log t with
         | (t1, Normal _) =>
             r = on_events pf port log rest Fulfilled t1
             /\ (snd r = Normal Fulfilled \/ exists x, snd r = Throw x)
         | (t1, Throw x) => r = (t1, Throw x)
         end
     | EvError error :: rest =>
         match analyzeError pf port error with
         | Normal reason =>
             r = on_events pf port log rest (Rejected reason) t
             /\ (snd r = Normal (Rejected reason)
                 \/ exists x, snd r = Throw x)
         | Throw x => r = (t, Throw x)
         end
     end.
Proof.
  split; [reflexivity|]. cbv zeta.
  destruct events as [|[error|] rest]; [reflexivity| |].
  - unfold listen. simpl. unfold bind, lift, ret.
    destruct (analyzeError pf port error) as [reason|x]; [|reflexivity].
    split; [reflexivity|].
    apply on_events_ends. discriminate.
  - unfold listen. simpl. unfold bind, ret.
    destruct (onListening pf port log t) as [t1 [[]|x]]; [|reflexivity].
    split; [reflexivity|].
    apply on_events_ends. discriminate.
Qed.

(** X15 on a server that listens and then reports an error, with a logger
    that returns and with one that throws. *)
Lemma X15_first_event_decides_witness :
  listen sample_platform (JsNumber (num 5000)) quiet_log (Normal tt)
         [EvListening; EvError (listen_error (lit "EADDRINUSE"))] []
  = ([(lit "Listening on port 5000", NoMeta)], Normal Fulfilled)
  /\ listen sample_platform (JsNumber (num 5000)) failing_log (Normal tt)
            [EvListening; EvError (listen_error (lit "EADDRINUSE"))] []
     = ([(lit "Listening on port 5000", NoMeta)],
        Throw (JsString (lit "log transport down"))).
Proof.
  split.
  - pose proof (proj2 (@X15_first_event_decides sample_platform
                         (JsNumber (num 5000)) quiet_log
                         [EvListening;
                          EvError (listen_error (lit "EADDRINUSE"))] []))
      as H.
    cbv zeta in H.
    change (onListening sample_platform (JsNumber (num 5000)) quiet_log [])
      with ([(lit "Listening on port 5000", NoMeta)], @Normal unit tt) in H.
    cbv beta iota in H. rewrite (proj1 H). reflexivity.
  - pose proof (proj2 (@X15_first_event_decides sample_platform
                         (JsNumber (num 5000)) failing_log
                         [EvListening;
                          EvError (listen_error (lit "EADDRINUSE"))] []))
      as H.
    cbv zeta in H.
    change (onListening sample_platform (JsNumber (num 5000)) failing_log [])
      with ([(lit "Listening on port 5000", NoMeta)],
            @Throw unit (JsString (lit "log transport down"))) in H.
    cbv beta iota in H. exact H.
Defined.

(** X16. When the first thing the server reports is a listen error with code
    'EADDRINUSE', the promise of [listen] is rejected with a new Error whose
    message is "Port <port> is already in use", <port> being the text of
    options.http.port after its defaults; that Error carries neither the
    code nor the syscall of the error it replaces. *)
Theorem X16_port_in_use_rejection (pf : Platform) (supplied : JsValue)
    (PORT : option JsStr) (log : OptionsLog) (error : JsValue)
    (rest : list ServerEvent) (t t' : InfoLog) (p : PromiseState)
    (text : JsStr) :
  nullish error = false ->
  field error (lit "syscall") = JsString (lit "listen") ->
  field error (lit "code") = JsString (lit "EADDRINUSE") ->
  ToString pf (http_port supplied PORT) = Normal text ->
  listen pf (http_port supplied PORT) log (Normal tt) (EvError error :: rest) t
  = (t', Normal p) ->
  let reason := new_Error (lit "Port " ++ text ++ lit " is already in use") in
  p = Rejected reason
  /\ field reason (lit "code") = JsUndefined
  /\ field reason (lit "syscall") = JsUndefined.
Proof.
  intros Hn Hs Hc Ht H reason.
  split; [|split; reflexivity].
  assert (Ha : analyzeError pf (http_port supplied PORT) error = Normal reason).
  { unfold analyzeError.
    rewrite (@get_field error (lit "syscall") Hn),
            (@get_field error (lit "code") Hn). simpl.
    rewrite Hs, Hc, Ht. reflexivity. }
  unfold listen in H. simpl in H. unfold bind at 1, lift, ret in H.
  rewrite Ha in H. simpl in H.
  exact (@on_events_settled pf (http_port supplied PORT) log rest
           (Rejected reason) p t t' ltac:(discriminate) H).
Qed.

(** X16 with no port supplied and PORT=8080 in the environment. *)
Lemma X16_port_in_use_rejection_witness :
  exists t' p,
    listen sample_platform (http_port JsUndefined (Some (lit "8080"))) quiet_log
           (Normal tt) [EvError (listen_error (lit "EADDRINUSE"))] []
    = (t', Normal p)
    /\ p = Rejected (new_Error (lit "Port 8080 is already in use")).
Proof.
  eexists. eexists. split; [reflexivity|].
  apply (@X16_port_in_use_rejection sample_platform JsUndefined
           (Some (lit "8080")) quiet_log (listen_error (lit "EADDRINUSE"))
           [] [] [] _ (lit "8080") eq_refl eq_refl eq_refl eq_refl eq_refl).
Defined.

(* ===================================================================== *)
(** * The default format and the log stream together *)
(* ===================================================================== *)

Lemma no_newline_app (a b : JsStr) :
  no_newline a -> no_newline b -> no_newline (a ++ b).
Proof.
  unfold no_newline. intros Ha Hb Hin.
  apply in_app_or in Hin. tauto.
Qed.

Lemma no_newline_field (f : option JsStr) :
  (forall s, f = Some s -> no_newline s) -> no_newline (join_field f).
Proof.
  destruct f as [s|]; simpl; intros H; [apply H; reflexivity|].
  intros [].
Qed.

(** X17. With formatLogInJSON off, the default format gives the line
    "<method> <url> <status> <response-time> ms -  <content-length>", an
    absent token leaving its place empty; and when no token holds a line
    feed, [write] on that line followed by a line feed (what morgan hands
    over) makes one logger call, with exactly that line. *)
Theorem X17_text_format_logged (pf : Platform) (data enableRequestId : JsValue)
    (x_request_id : option JsStr) (tokens : Tokens) (log : OptionsLog)
    (t : InfoLog) :
  nullish data = false ->
  truthy (field data (lit "formatLogInJSON")) = false ->
  (forall s, In (Some s) [tok_method tokens; tok_url tokens; tok_status tokens;
                          tok_response_time tokens; tok_content_length tokens] ->
             no_newline s) ->
  let line := join_field (tok_method tokens) ++ lit " "
              ++ join_field (tok_url tokens) ++ lit " "
              ++ join_field (tok_status tokens) ++ lit " "
              ++ join_field (tok_response_time tokens) ++ lit " ms -  "
              ++ join_field (tok_content_length tokens) in
  default_format pf data enableRequestId x_request_id tokens
  = Normal (TextLine line)
  /\ write pf data log (line ++ [10%N]) t
     = (t ++ [(line, NoMeta)], log line NoMeta).
Proof.
  intros Hn Hf Htok line.
  split.
  - unfold default_format.
    rewrite (@get_field data (lit "formatLogInJSON") Hn). simpl.
    rewrite Hf. subst line. simpl. reflexivity.
  - rewrite (@write_text_run pf data log (line ++ [10%N]) t Hn Hf).
    assert (Hl : no_newline line).
    { subst line.
      repeat apply no_newline_app;
        try (apply no_newline_field; intros s E; apply Htok; rewrite <- E;
             simpl; tauto);
        unfold no_newline; simpl; intuition discriminate. }
    rewrite (strip_newline_line [] Hl), app_nil_r. reflexivity.
Qed.

(** X17 on a request whose status and content length are not known. *)
Lemma X17_text_format_logged_witness :
  let tokens := mkTokens (Some (lit "GET")) (Some (lit "/me")) None
                         (Some (lit "1.2")) None None in
  default_format sample_platform (routing_data false) JsUndefined None tokens
  = Normal (TextLine (lit "GET /me  1.2 ms -  "))
  /\ write sample_platform (routing_data false) quiet_log
           (lit "GET /me  1.2 ms -  " ++ [10%N]) []
     = ([(lit "GET /me  1.2 ms -  ", NoMeta)], Normal tt).
Proof.
  intros tokens.
  apply (@X17_text_format_logged sample_platform (routing_data false)
           JsUndefined None tokens quiet_log [] eq_refl eq_refl).
  intros s Hin. simpl in Hin.
  repeat destruct Hin as [Hin|Hin]; try discriminate; try contradiction;
    inversion Hin; subst; unfold no_newline; simpl; intuition discriminate.
Defined.
